(** * Nashville housing loader: [scripts/load_to_scripts.py]

    A shallow embedding of the CSV-to-Postgres loader and the properties of
    its identifier sanitizer, its column type inference, its DDL generator
    and its create-or-append transaction script.

    Python strings are sequences of Unicode code points; they are modelled
    as lists of code points ([N]).  The pandas and psycopg2 libraries are
    not part of the program: the parts of them the program relies on are
    modelled explicitly and named as such. *)

From Stdlib Require Import NArith ZArith QArith Ascii String Bool Lia.
From stdpp Require Import base option list gmap.

Set Default Proof Using "Type".
Local Open Scope N_scope.

(** ** Python strings *)

Module PyStr.

Definition char := N.
Definition pystr := list char.

(** An ASCII literal of the source, as a Python string. *)
Fixpoint lit (s : string) : pystr :=
  match s with
  | EmptyString => []
  | String a r => N_of_ascii a :: lit r
  end.

Definition underscore : char := 95.
Definition is_underscore (c : char) : bool := c =? underscore.

(** The character class [[0-9a-z]] of the regular expressions. *)
Definition is_ascii_digit (c : char) : bool := (48 <=? c) && (c <=? 57).
Definition is_ascii_lower (c : char) : bool := (97 <=? c) && (c <=? 122).
Definition is_ascii_upper (c : char) : bool := (65 <=? c) && (c <=? 90).
Definition in_class (c : char) : bool := is_ascii_digit c || is_ascii_lower c.
Definition not_in_class (c : char) : bool := negb (in_class c).

(** What CPython takes from its Unicode database for code points outside
    ASCII.  The database is not part of the program, so it is a parameter:
    - [lower_ext before c after] is the lower-casing of the non-ASCII code
      point [c] standing between [before] and [after] (one code point may
      lower to several, and capital sigma depends on its context);
    - [isspace_ext] and [isdigit_ext] are [str.isspace] and [str.isdigit]
      outside ASCII. *)
Record unicode_data := {
  lower_ext : pystr -> char -> pystr -> pystr;
  isspace_ext : char -> bool;
  isdigit_ext : char -> bool
}.

(** A database with no information outside ASCII, for running examples. *)
Definition ascii_only : unicode_data :=
  {| lower_ext := fun _ c _ => [c];
     isspace_ext := fun _ => false;
     isdigit_ext := fun _ => false |}.

Section WithUnicode.
Context (U : unicode_data).

Definition is_ascii (c : char) : bool := c <? 128.

(** [str.isspace] on one code point: tab, LF, VT, FF, CR, the four
    separators 0x1c-0x1f and the space in ASCII. *)
Definition py_isspace (c : char) : bool :=
  if is_ascii c
  then ((9 <=? c) && (c <=? 13)) || ((28 <=? c) && (c <=? 31)) || (c =? 32)
  else isspace_ext U c.

(** [str.isdigit] on one code point. *)
Definition py_isdigit (c : char) : bool :=
  if is_ascii c then is_ascii_digit c else isdigit_ext U c.

Definition lower_char (before : pystr) (c : char) (after : pystr) : pystr :=
  if is_ascii c
  then [if is_ascii_upper c then c + 32 else c]
  else lower_ext U before c after.

Fixpoint lower_from (before s : pystr) : pystr :=
  match s with
  | [] => []
  | c :: r => lower_char before c r ++ lower_from (before ++ [c]) r
  end.

(** [s.lower()] *)
Definition py_lower (s : pystr) : pystr := lower_from [] s.

Fixpoint lstrip_by (p : char -> bool) (s : pystr) : pystr :=
  match s with
  | [] => []
  | c :: r => if p c then lstrip_by p r else s
  end.

Fixpoint rstrip_by (p : char -> bool) (s : pystr) : pystr :=
  match s with
  | [] => []
  | c :: r =>
      match rstrip_by p r with
      | [] => if p c then [] else [c]
      | r' => c :: r'
      end
  end.

(** [s.strip(chars)]: the characters selected by [p] are removed from both
    ends. *)
Definition strip_by (p : char -> bool) (s : pystr) : pystr :=
  rstrip_by p (lstrip_by p s).

(** [s.strip()] *)
Definition py_strip (s : pystr) : pystr := strip_by py_isspace s.

(** [s.startswith(prefix)] *)
Fixpoint startswith (s prefix : pystr) : bool :=
  match prefix, s with
  | [], _ => true
  | _ :: _, [] => false
  | a :: prefix', c :: s' => (c =? a) && startswith s' prefix'
  end.

(** [sep.join(parts)] *)
Fixpoint join (sep : pystr) (parts : list pystr) : pystr :=
  match parts with
  | [] => []
  | [p] => p
  | p :: rest => p ++ sep ++ join sep rest
  end.

(** ** The two substitutions of [sanitize]

    Both patterns, [[^0-9a-z]+] and [__+], are a character class repeated
    at least [n] times ([n] is 1 and 2), and both replacements are a single
    underscore.  [re.sub] scans from the left and every match is greedy, so
    the matches are the maximal runs of class characters of length at least
    [n]; a shorter run is copied unchanged.  [run] is the run being read. *)

Definition flush (n : nat) (run : pystr) : pystr :=
  match run with
  | [] => []
  | _ :: _ => if (n <=? length run)%nat then [underscore] else run
  end.

Fixpoint re_sub_runs (p : char -> bool) (n : nat) (run s : pystr) : pystr :=
  match s with
  | [] => flush n run
  | c :: r =>
      if p c then re_sub_runs p n (run ++ [c]) r
      else flush n run ++ c :: re_sub_runs p n [] r
  end.

(** [re.sub(r'[^0-9a-z]+', '_', s)] *)
Definition sub_non_alnum (s : pystr) : pystr := re_sub_runs not_in_class 1 [] s.

(** [re.sub(r'__+', '_', s)] *)
Definition sub_underscores (s : pystr) : pystr := re_sub_runs is_underscore 2 [] s.

(** ** [sanitize] (lines 24-30) *)

(** The string after the substitutions and the strip of line 27. *)
Definition sanitize_core (col : pystr) : pystr :=
  let s := py_lower (py_strip col) in
  let s := sub_non_alnum s in
  strip_by is_underscore (sub_underscores s).

(** The source statement by statement; [s[0]] raises on an empty string,
    which is the [None] of [s !! 0], and [or] evaluates it only when the
    left operand is false. *)
Definition sanitize_exc (col : pystr) : option pystr :=
  let s := sanitize_core col in
  cond ← (if bool_decide (s = []) then Some true
          else c ← s !! 0%nat; Some (py_isdigit c));
  Some (if (cond : bool) then lit "col_" ++ s else s).

Definition sanitize (col : pystr) : pystr :=
  let s := sanitize_core col in
  match s with
  | [] => lit "col_" ++ s
  | c :: _ => if py_isdigit c then lit "col_" ++ s else s
  end.

End WithUnicode.

(** ** What a sanitized name looks like *)

(** A character of an identifier: [[0-9a-z_]]. *)
Definition ident_char (c : char) : bool := in_class c || is_underscore c.

Definition head_is (p : char -> bool) (s : pystr) : bool :=
  match s with
  | c :: _ => p c
  | [] => false
  end.

Definition last_is (p : char -> bool) (s : pystr) : bool :=
  match last s with
  | Some c => p c
  | None => false
  end.

Fixpoint no_adjacent_underscores (s : pystr) : bool :=
  match s with
  | [] => true
  | a :: r => negb (is_underscore a && head_is is_underscore r)
              && no_adjacent_underscores r
  end.

(** Identifier characters, no two underscores in a row, no underscore at
    either end; the empty string is tidy. *)
Definition tidy (s : pystr) : bool :=
  forallb ident_char s && no_adjacent_underscores s
  && negb (head_is is_underscore s) && negb (last_is is_underscore s).


(** The words of a string: its maximal runs of characters of [[0-9a-z]],
    in order.  [split_words s] is the word that starts at the head of [s]
    (empty when the head is not in the class) and the words after it. *)
Fixpoint split_words (s : pystr) : pystr * list pystr :=
  match s with
  | [] => ([], [])
  | c :: r =>
      let '(w, ws) := split_words r in
      if in_class c then (c :: w, ws)
      else ([], match w with [] => ws | _ :: _ => w :: ws end)
  end.

Definition words (s : pystr) : list pystr :=
  let '(w, ws) := split_words s in
  match w with [] => ws | _ :: _ => w :: ws end.

(** Both substitutions in one pass: an underscore is written when a run of
    class characters starts and the rest of the run is skipped. *)
Fixpoint squash (p : char -> bool) (in_run : bool) (s : pystr) : pystr :=
  match s with
  | [] => []
  | c :: r =>
      if p c then (if in_run then squash p true r else underscore :: squash p true r)
      else c :: squash p false r
  end.

(** Each word after the first, with the underscore before it. *)
Definition tail_join (ws : list pystr) : pystr :=
  flat_map (fun w => underscore :: w) ws.

(** The string after both substitutions and the strip of line 27, in the
    one-pass form. *)
Definition cleaned (s : pystr) : pystr :=
  strip_by is_underscore (squash not_in_class false s).

(** [s.split(sep)] for a separator of one character. *)
Fixpoint split_at (sep : char) (s : pystr) : list pystr :=
  match s with
  | [] => [[]]
  | c :: r =>
      if c =? sep then [] :: split_at sep r
      else match split_at sep r with
           | l :: ls => (c :: l) :: ls
           | [] => [[c]]
           end
  end.

End PyStr.

(** ** The parts of pandas the program uses *)

Module Pandas.
Import PyStr.

(** A cell of a column.  [CMissing] stands for every marker that
    [isna]/[dropna]/[notnull] treat as missing (NaN, None, NaT). *)
Inductive cell :=
  | CInt (z : Z)
  | CFloat (q : Q)             (* a finite float, as the rational it denotes *)
  | CInf (negative : bool)
  | CBool (b : bool)
  | CStr (s : pystr)
  | CDate (days : Z)           (* a [datetime.date], in days since the epoch *)
  | CMissing.

(** The dtypes [read_csv] gives a column, as the [is_*_dtype] tests see
    them.  An int64 or bool column has no missing value: [read_csv] stores
    an integer column with an empty field as float64 (the empty field is
    NaN) and a column with no value at all as float64 too. *)
Inductive dtype := DInt | DFloat | DBool | DObject.

Record Series := { dtype_of : dtype; values : list cell }.

Definition is_integer_dtype (s : Series) : bool :=
  match dtype_of s with DInt => true | _ => false end.
Definition is_float_dtype (s : Series) : bool :=
  match dtype_of s with DFloat => true | _ => false end.
Definition is_bool_dtype (s : Series) : bool :=
  match dtype_of s with DBool => true | _ => false end.

Definition isna (c : cell) : bool :=
  match c with CMissing => true | _ => false end.

(** [s.dropna()], [s.head(n)], [s.empty] *)
Definition dropna (s : Series) : Series :=
  {| dtype_of := dtype_of s; values := filter (fun c => isna c = false) (values s) |}.
Definition head (n : nat) (s : Series) : Series :=
  {| dtype_of := dtype_of s; values := take n (values s) |}.
Definition empty (s : Series) : bool :=
  match values s with [] => true | _ :: _ => false end.

(** A frame is its columns in order, each under its label; labels can
    repeat (they do after two raw names sanitize to the same name). *)
Abbreviation DataFrame := (list (pystr * Series)).

Definition columns (df : DataFrame) : list pystr := map fst df.

Definition select_label (df : DataFrame) (c : pystr) : DataFrame :=
  filter (fun col => col.1 = c) df.

(** [df[c]] is a Series when one column carries the label [c] and a frame
    of all of them when several do; an unknown label raises [KeyError]. *)
Inductive item := ItemSeries (s : Series) | ItemFrame (cols : DataFrame).

Definition getitem (df : DataFrame) (c : pystr) : option item :=
  match select_label df c with
  | [] => None
  | [col] => Some (ItemSeries col.2)
  | cols => Some (ItemFrame cols)
  end.

(** [df[labels]]: for each label in turn, every column that carries it;
    [KeyError] when a label is unknown. *)
Definition getitem_list (df : DataFrame) (labels : list pystr) : option DataFrame :=
  if forallb (fun c => bool_decide (select_label df c <> [])) labels
  then Some (flat_map (select_label df) labels)
  else None.

(** [df.columns = labels] relabels by position; the lengths must agree. *)
Definition set_columns (df : DataFrame) (labels : list pystr) : option DataFrame :=
  if bool_decide (length labels = length df)
  then Some (zip_with (fun l col => (l, col.2)) labels df)
  else None.

(** [df[c] = s] for a label that is present: the columns under the label
    take the new values and keep their place. *)
Definition setitem (df : DataFrame) (c : pystr) (s : Series) : DataFrame :=
  map (fun col => if bool_decide (col.1 = c) then (c, s) else col) df.

Definition nrows (df : DataFrame) : nat :=
  match df with
  | [] => 0%nat
  | col :: _ => length (values col.2)
  end.

(** The rows of a frame, as the bulk load transfers them. *)
Definition frame_rows (df : DataFrame) : list (list cell) :=
  map (fun i => map (fun col => default CMissing (values col.2 !! i)) df)
      (seq 0 (nrows df)).

(** Library functions whose results the program only passes on:
    - [to_datetime s] is [pd.to_datetime(s, errors='coerce')] on a Series:
      [None] when the call raises, otherwise for each position the parsed
      time stamp (nanoseconds since the epoch) or [None] for NaT;
    - [to_csv df] is the text [df.to_csv(buf, index=False,
      date_format='%Y-%m-%d')] writes. *)
Record library := {
  to_datetime : Series -> option (list (option Z));
  to_csv : DataFrame -> pystr
}.

Definition ns_per_day : Z := 86400000000000.

(** [.dt.date]: the calendar date of each time stamp, NaT staying missing;
    the result is an object column. *)
Definition dt_date (stamps : list (option Z)) : Series :=
  {| dtype_of := DObject;
     values := map (fun t => match t with
                             | Some ns => CDate (ns `div` ns_per_day)
                             | None => CMissing
                             end) stamps |}.

(** What the claims say of the values of a column. *)

(** An integer, or a float equal to an integer. *)
Definition integral_cell (c : cell) : bool :=
  match c with
  | CInt _ => true
  | CFloat q => (Qden (Qred q) =? 1)%positive
  | _ => false
  end.

(** Every value that is not missing is an integer. *)
Definition all_integral (s : Series) : bool :=
  forallb (fun c => isna c || integral_cell c) (values s).

Definition all_missing (s : Series) : bool := forallb isna (values s).

(** The values a column of each dtype can hold. *)
Definition cell_fits (d : dtype) (c : cell) : bool :=
  match d, c with
  | DInt, CInt _ => true
  | DFloat, (CFloat _ | CInf _ | CMissing) => true
  | DBool, CBool _ => true
  | DObject, _ => true
  | _, _ => false
  end.

Definition well_formed (s : Series) : bool :=
  forallb (cell_fits (dtype_of s)) (values s).

(** [maybe.notnull().any()] *)
Definition any_notnull (stamps : list (option Z)) : bool :=
  existsb (fun t => match t with Some _ => true | None => false end) stamps.

End Pandas.

(** ** Schema inference and DDL (lines 32-58) *)

Module Schema.
Import PyStr Pandas.

Inductive pg_type := BIGINT | DOUBLE_PRECISION | BOOLEAN | DATE | TEXT.

(** The text the source returns for each type. *)
Definition pg_type_name (t : pg_type) : pystr :=
  match t with
  | BIGINT => lit "BIGINT"
  | DOUBLE_PRECISION => lit "DOUBLE PRECISION"
  | BOOLEAN => lit "BOOLEAN"
  | DATE => lit "DATE"
  | TEXT => lit "TEXT"
  end.

Section WithLibrary.
Context (U : unicode_data) (L : library).

(** The [try] block of lines 39-46: [Some DATE] is its [return], [None]
    is falling out of it, also through [except Exception: pass]. *)
Definition try_date (s : Series) : option pg_type :=
  let non_null := dropna s in
  if negb (empty non_null) then
    match to_datetime L (head 50 non_null) with
    | Some maybe => if any_notnull maybe then Some DATE else None
    | None => None
    end
  else None.

Definition pg_type_from_series (s : Series) : pg_type :=
  if is_integer_dtype s then BIGINT
  else if is_float_dtype s then DOUBLE_PRECISION
  else if is_bool_dtype s then BOOLEAN
  else match try_date s with
       | Some t => t
       | None => TEXT
       end.

(** [pg_type_from_series(df[c])].  When [df[c]] is a frame (a repeated
    label) the three dtype tests are false, since a frame has no dtype, and
    [pd.to_datetime] refuses a frame with repeated column names by raising
    [ValueError] inside the [try]: the function returns ['TEXT']. *)
Definition pg_type_of_item (it : item) : pg_type :=
  match it with
  | ItemSeries s => pg_type_from_series s
  | ItemFrame _ => TEXT
  end.

Definition column_sql (name : pystr) (typ : pg_type) : pystr :=
  name ++ lit " " ++ pg_type_name typ.

Definition newline : char := 10.
(** The separator [",\n    "] of line 56. *)
Definition column_sep : pystr := lit "," ++ [newline] ++ lit "    ".

Definition ddl_text (schema table columns_sql : pystr) : pystr :=
  lit "CREATE TABLE IF NOT EXISTS " ++ schema ++ lit "." ++ table ++ lit " ("
  ++ [newline] ++ lit "    id SERIAL PRIMARY KEY," ++ [newline] ++ lit "    "
  ++ columns_sql ++ [newline] ++ lit ");" ++ [newline].

Definition generate_create_table_sql (df : DataFrame) (schema table : pystr)
  : option pystr :=
  parts ← mapM (fun c => it ← getitem df c;
                       Some (column_sql (sanitize U c) (pg_type_of_item it)))
               (columns df);
  Some (ddl_text schema table (join column_sep parts)).

(** The type written for a column of [df]: the type inferred from its
    values when no other column carries its label, ['TEXT'] otherwise. *)
Definition column_type (df : DataFrame) (col : pystr * Series) : pg_type :=
  if bool_decide (length (select_label df col.1) = 1%nat)
  then pg_type_from_series col.2
  else TEXT.

End WithLibrary.

Definition no_newline (s : pystr) : bool :=
  forallb (fun c => negb (c =? newline)) s.

(** The lines the column definitions take in the statement: each
    indented by four spaces, all but the last followed by a comma; with no
    definition, the indentation alone. *)
Fixpoint column_lines (defs : list pystr) : list pystr :=
  match defs with
  | [] => [lit "    "]
  | [d] => [lit "    " ++ d]
  | d :: rest => (lit "    " ++ d ++ lit ",") :: column_lines rest
  end.

End Schema.

(** ** The database, as the loader sees it through psycopg2 *)

Module Db.
Import PyStr Pandas.

(** A table is named by its schema and its name and holds rows. *)
Definition table_id := (pystr * pystr)%type.
Definition row := list cell.

(** One connection with [autocommit = False]: [committed] is what the
    server keeps and every other session sees, [pending] is the view of
    the open transaction.  [commit] makes the pending view the committed
    one, [rollback] and [close] drop it. *)
Record db := {
  committed : gmap table_id (list row);
  pending : gmap table_id (list row)
}.

Definition fresh_session (tables : gmap table_id (list row)) : db :=
  {| committed := tables; pending := tables |}.

(** The catalog query of [table_exists] (lines 72-82). *)
Definition has_table (d : db) (t : table_id) : bool :=
  bool_decide (is_Some (pending d !! t)).

(** [CREATE TABLE IF NOT EXISTS] of the table [t]: a new empty table, or
    nothing when the table is there.  [t] is the table the server reads in
    the statement, which need not be the table the loader checked (see
    [created_by] below). *)
Definition with_table (t : table_id) (tables : gmap table_id (list row))
  : gmap table_id (list row) :=
  match tables !! t with
  | Some _ => tables
  | None => <[t := []]> tables
  end.

Definition create_if_absent (t : table_id) (d : db) : db :=
  {| committed := committed d; pending := with_table t (pending d) |}.

(** Rows reaching the table through [COPY ... FROM STDIN]. *)
Definition append_rows (t : table_id) (rows : list row) (d : db) : db :=
  {| committed := committed d;
     pending := alter (fun old => old ++ rows) t (pending d) |}.

Definition commit (d : db) : db :=
  {| committed := pending d; pending := pending d |}.

Definition rollback (d : db) : db :=
  {| committed := committed d; pending := committed d |}.

End Db.

(** ** The loader script (lines 60-70 and 84-161) *)

Module Loader.
Import PyStr Pandas Schema Db.

(** The operations on the outside world, in the order the run performs
    them, each with whether it succeeded. *)
Inductive op :=
  | OpProbeConnect                    (* [psycopg2.connect] in [wait_for_db] *)
  | OpProbeClose                      (* [conn.close()] in [wait_for_db] *)
  | OpSleep (seconds : N)             (* [time.sleep] *)
  | OpConnect                         (* [psycopg2.connect] of line 125 *)
  | OpTableExists (t : table_id)
  | OpExecute (ddl : pystr)           (* [cur.execute(ddl)] *)
  | OpCommit
  | OpCopy (copy_sql csv : pystr)     (* [cur.copy_expert] *)
  | OpRollback
  | OpClose.

Record event := Ev { ev_op : op; ev_ok : bool }.

Inductive exn :=
  | CsvNotFound                       (* [SystemExit] of line 96 *)
  | CsvUnreadable                     (* [pd.read_csv] raising *)
  | FrameError                        (* a pandas call raising outside [try] *)
  | DbNotReachable                    (* ["Database not reachable after retries"] *)
  | DbFailure (o : op).               (* the psycopg2 error of a failed operation *)

Inductive outcome (A : Type) :=
  | Ok (a : A)
  | Raise (e : exn).
Arguments Ok {A} a.
Arguments Raise {A} e.

(** What the run cannot decide: the file, which operations fail, and how
    the server reads a statement.
    - [probe i] is the outcome of the connection and of the close of
      attempt [i] (from 0) of [wait_for_db];
    - [created_by ddl] is the table the server creates (when it is not
      there) for the [CREATE TABLE IF NOT EXISTS] text [ddl], and [None]
      when it rejects the text.  Line 57 writes the schema and table names
      into the text as they are, unquoted, so the server reads them by its
      own rules (PostgreSQL folds an unquoted name to lower case), whereas
      the catalog query (lines 77-80) and the bulk load (lines 144-147)
      name the table exactly as given;
    - [copy_fails_after] is [None] when the bulk load goes through and
      [Some k] when it fails after [k] rows reached the table;
    - [rollback_ok] is whether [conn.rollback()] (line 157) goes through:
      it raises when the connection was lost.
    The [conn.close()] of line 161 only releases the connection:
    psycopg2 raises nothing there, and it is taken not to fail. *)
Record environment := {
  csv_exists : bool;
  csv_frame : option DataFrame;
  probe : nat -> bool * bool;
  connect_ok : bool;
  exists_ok : bool;
  created_by : pystr -> option table_id;
  execute_ok : bool;
  ddl_commit_ok : bool;
  copy_fails_after : option nat;
  copy_commit_ok : bool;
  rollback_ok : bool
}.

Record world := { w_db : db; w_trace : list event }.

(** Computations that change the world and return or raise. *)
Definition M (A : Type) : Type := world -> outcome A * world.

Definition ret {A} (a : A) : M A := fun w => (Ok a, w).
Definition raise {A} (e : exn) : M A := fun w => (Raise e, w).
Definition bind {A B} (m : M A) (k : A -> M B) : M B :=
  fun w => match m w with
           | (Ok a, w') => k a w'
           | (Raise e, w') => (Raise e, w')
           end.

#[global] Instance M_ret : MRet M := @ret.
#[global] Instance M_bind : MBind M := fun A B k m => bind m k.

(** [try: body  except Exception as e: handler(e)] *)
Definition try_except {A} (body : M A) (handler : exn -> M A) : M A :=
  fun w => match body w with
           | (Ok a, w') => (Ok a, w')
           | (Raise e, w') => handler e w'
           end.

(** [try: body  finally: cleanup] *)
Definition try_finally {A} (body : M A) (cleanup : M unit) : M A :=
  fun w => match body w with
           | (r, w') =>
               match cleanup w' with
               | (Ok _, w'') => (r, w'')
               | (Raise e, w'') => (Raise e, w'')
               end
           end.

(** One operation: it is recorded, changes the database when it succeeds
    and raises when it fails. *)
Definition perform (o : op) (ok : bool) (effect : db -> db) : M unit :=
  fun w =>
    let w' := {| w_db := if ok then effect (w_db w) else w_db w;
                 w_trace := w_trace w ++ [Ev o ok] |} in
    (if ok then Ok tt else Raise (DbFailure o), w').

(** An operation that fails part way: what it did until then stays in the
    open transaction. *)
Definition perform_partly (o : op) (effect : db -> db) : M unit :=
  fun w =>
    (Raise (DbFailure o),
     {| w_db := effect (w_db w); w_trace := w_trace w ++ [Ev o false] |}).

Definition get_db : M db := fun w => (Ok (w_db w), w).

Section WithEnvironment.
Context (U : unicode_data) (L : library) (E : environment).

(** *** [wait_for_db] (lines 60-70) *)

(** The body of the [try] of attempt [i]: connect, then close. *)
Definition probe_once (i : nat) : M unit :=
  perform OpProbeConnect (probe E i).1 id;;
  perform OpProbeClose (probe E i).2 id.

(** The loop over [range(max_retries)], from attempt [i] with [remaining]
    attempts left. *)
Fixpoint wait_loop (wait_seconds : N) (i remaining : nat) : M bool :=
  match remaining with
  | O => raise DbNotReachable
  | S remaining' =>
      try_except (probe_once i;; mret true)
        (fun _ => perform (OpSleep wait_seconds) true id;;
                  wait_loop wait_seconds (S i) remaining')
  end.

Definition wait_for_db (max_retries : nat) (wait_seconds : N) : M bool :=
  wait_loop wait_seconds 0 max_retries.

(** The events of [wait_loop] written out, and whether it returns. *)
Definition attempt_ok (i : nat) : bool := (probe E i).1 && (probe E i).2.

Definition attempt_events (i : nat) : list event :=
  if (probe E i).1
  then [Ev OpProbeConnect true; Ev OpProbeClose (probe E i).2]
  else [Ev OpProbeConnect false].

Fixpoint wait_events (wait_seconds : N) (i remaining : nat) : list event :=
  match remaining with
  | O => []
  | S remaining' =>
      attempt_events i
      ++ (if attempt_ok i then []
          else Ev (OpSleep wait_seconds) true :: wait_events wait_seconds (S i) remaining')
  end.

Fixpoint wait_succeeds (i remaining : nat) : bool :=
  match remaining with
  | O => false
  | S remaining' => attempt_ok i || wait_succeeds (S i) remaining'
  end.

(** *** [table_exists] (lines 72-82) *)
Definition table_exists (t : table_id) : M bool :=
  d ← get_db;
  perform (OpTableExists t) (exists_ok E) id;;
  mret (has_table d t).

(** *** Preparing the frame (lines 101-111) *)

Definition is_unnamed (c : pystr) : bool :=
  startswith (py_lower U c) (lit "unnamed").

Definition drop_unnamed (df : DataFrame) : option DataFrame :=
  getitem_list df (filter (fun c => is_unnamed c = false) (columns df)).

Definition sanitize_columns (df : DataFrame) : option DataFrame :=
  set_columns df (map (sanitize U) (columns df)).

Definition sale_date : pystr := lit "sale_date".

(** Lines 109-111.  [pd.to_datetime] raises on a frame with a repeated
    label, which is what [df['sale_date']] is when two columns carry the
    name. *)
Definition parse_sale_date (df : DataFrame) : option DataFrame :=
  if bool_decide (sale_date ∈ columns df) then
    match getitem df sale_date with
    | Some (ItemSeries s) =>
        stamps ← to_datetime L s;
        Some (setitem df sale_date (dt_date stamps))
    | _ => None
    end
  else Some df.

Definition prepare (df : DataFrame) : option DataFrame :=
  df ← drop_unnamed df;
  df ← sanitize_columns df;
  parse_sale_date df.

(** *** The statement of the bulk load (lines 144-148) *)

Definition double_quote : char := 34.

(** [sql.Identifier(s)] rendered: in double quotes, every double quote of
    [s] written twice. *)
Definition quote_ident (s : pystr) : pystr :=
  [double_quote]
  ++ flat_map (fun c => if c =? double_quote then [double_quote; double_quote] else [c]) s
  ++ [double_quote].

Definition copy_statement (schema table : pystr) (cols : list pystr) : pystr :=
  lit "COPY " ++ quote_ident schema ++ lit "." ++ quote_ident table ++ lit " ("
  ++ join (lit ",") (map quote_ident cols) ++ lit ") FROM STDIN WITH CSV HEADER".

(** [cur.copy_expert]: it fails on a table that is not there and when the
    environment says so, after some of the rows reached the table. *)
Definition copy_expert (t : table_id) (statement csv : pystr) (rows : list row)
  : M unit :=
  d ← get_db;
  if has_table d t then
    match copy_fails_after E with
    | None => perform (OpCopy statement csv) true (append_rows t rows)
    | Some k =>
        perform_partly (OpCopy statement csv) (append_rows t (take k rows))
    end
  else perform (OpCopy statement csv) false id.

(** *** The transaction of lines 127-159 *)

(** [cur.execute(ddl)] (line 133): the server creates the table it reads
    in the text, or fails. *)
Definition execute (ddl : pystr) : M unit :=
  match created_by E ddl with
  | Some made => perform (OpExecute ddl) (execute_ok E) (create_if_absent made)
  | None => perform (OpExecute ddl) false id
  end.

Definition create_and_load (df : DataFrame) (schema table : pystr) : M unit :=
  present ← table_exists (schema, table);
  (if negb present then
     match generate_create_table_sql U L df schema table with
     | Some ddl =>
         execute ddl;;
         perform OpCommit (ddl_commit_ok E) commit
     | None => raise FrameError
     end
   else mret tt);;
  copy_expert (schema, table)
    (copy_statement schema table (columns df)) (to_csv L df) (frame_rows df);;
  perform OpCommit (copy_commit_ok E) commit.

(** Lines 127-161: the [try], its [except] and its [finally].  When the
    rollback of line 157 raises, the [raise] of line 159 is not reached and
    the error of the rollback is the one that leaves the clause. *)
Definition load_transaction (df : DataFrame) (schema table : pystr) : M unit :=
  try_finally
    (try_except (create_and_load df schema table)
       (fun e => perform OpRollback (rollback_ok E) rollback;; raise e))
    (perform OpClose true rollback).

(** *** [main] (lines 84-161), after the arguments are read *)
Definition main (schema table : pystr) : M unit :=
  (if csv_exists E then mret tt else raise CsvNotFound);;
  df ← (match csv_frame E with Some df => mret df | None => raise CsvUnreadable end);
  df ← (match prepare df with Some df => mret df | None => raise FrameError end);
  wait_for_db 20 3;;
  perform OpConnect (connect_ok E) id;;
  load_transaction df schema table.

(** *** The transaction written out

    What [load_transaction] returns, the events it adds and the database
    it leaves, for each of its paths: [present] is the answer of the
    catalog query, [ddl] the statement generated, [statement] and [csv]
    what the bulk load is given. *)
Definition undo : list event := [Ev OpRollback (rollback_ok E); Ev OpClose true].

(** What leaves the [except] clause when the body raised [e]. *)
Definition reraised (e : exn) : outcome unit :=
  Raise (if rollback_ok E then e else DbFailure OpRollback).

(** The bulk load and its commit, on a table that is there. *)
Definition load_path (t : table_id) (statement csv : pystr) (rows : list row)
    (before : list event) (d : db) : outcome unit * list event * db :=
  let copy := OpCopy statement csv in
  match copy_fails_after E with
  | Some k =>
      (reraised (DbFailure copy), before ++ Ev copy false :: undo,
       rollback (append_rows t (take k rows) d))
  | None =>
      if copy_commit_ok E
      then (Ok tt, before ++ [Ev copy true; Ev OpCommit true; Ev OpClose true],
            commit (append_rows t rows d))
      else (reraised (DbFailure OpCommit),
            before ++ Ev copy true :: Ev OpCommit false :: undo,
            rollback (append_rows t rows d))
  end.

Definition transaction_path (t : table_id) (ddl statement csv : pystr)
    (rows : list row) (d : db) : outcome unit * list event * db :=
  let query := OpTableExists t in
  let copy := OpCopy statement csv in
  if negb (exists_ok E) then
    (reraised (DbFailure query), Ev query false :: undo, rollback d)
  else if has_table d t then
    load_path t statement csv rows [Ev query true] d
  else
    match created_by E ddl with
    | None =>
        (reraised (DbFailure (OpExecute ddl)),
         Ev query true :: Ev (OpExecute ddl) false :: undo, rollback d)
    | Some made =>
        if negb (execute_ok E) then
          (reraised (DbFailure (OpExecute ddl)),
           Ev query true :: Ev (OpExecute ddl) false :: undo, rollback d)
        else if negb (ddl_commit_ok E) then
          (reraised (DbFailure OpCommit),
           Ev query true :: Ev (OpExecute ddl) true :: Ev OpCommit false :: undo,
           rollback (create_if_absent made d))
        else if bool_decide (made = t) then
          load_path t statement csv rows
            [Ev query true; Ev (OpExecute ddl) true; Ev OpCommit true]
            (commit (create_if_absent t d))
        else
          (* the table created is another one: the bulk load finds none *)
          (reraised (DbFailure copy),
           Ev query true :: Ev (OpExecute ddl) true :: Ev OpCommit true
           :: Ev copy false :: undo,
           commit (create_if_absent made d))
    end.

End WithEnvironment.

(** *** Reading a trace *)

Definition succeeded {A} (r : outcome A) : bool :=
  match r with Ok _ => true | Raise _ => false end.

(** The events of [wait_for_db]. *)
Definition is_probe (e : event) : bool :=
  match ev_op e with
  | OpProbeConnect | OpProbeClose | OpSleep _ => true
  | _ => false
  end.

Definition is_probe_connect (e : event) : bool :=
  match ev_op e with OpProbeConnect => true | _ => false end.

(** The events of the [except] and [finally] clauses. *)
Definition is_cleanup (e : event) : bool :=
  match ev_op e with
  | OpRollback | OpClose => true
  | _ => false
  end.

Definition is_execute (e : event) : bool :=
  match ev_op e with OpExecute _ => true | _ => false end.

Definition is_copy (e : event) : bool :=
  match ev_op e with OpCopy _ _ => true | _ => false end.

Definition is_commit (e : event) : bool :=
  match ev_op e with OpCommit => true | _ => false end.

Definition is_check (e : event) : bool :=
  match ev_op e with OpTableExists _ => true | _ => false end.

(** The connection attempts of [wait_for_db]. *)
Definition probe_connects (tr : list event) : nat :=
  length (filter (fun e => is_probe_connect e = true) tr).

Definition is_connect (e : event) : bool :=
  match ev_op e with OpConnect => true | _ => false end.

Definition is_rollback (e : event) : bool :=
  match ev_op e with OpRollback => true | _ => false end.

Definition is_close (e : event) : bool :=
  match ev_op e with OpClose => true | _ => false end.

(** Whether a trace ends with a commit that went through and the close
    of the connection. *)
Definition ends_committed (tr : list event) : bool :=
  match reverse tr with
  | e1 :: e2 :: _ => is_close e1 && ev_ok e1 && is_commit e2 && ev_ok e2
  | _ => false
  end.

(** Whether a trace starts with the catalog query. *)
Definition head_is_check (tr : list event) : bool :=
  match tr with
  | e :: _ => is_check e
  | [] => false
  end.

(** How many events of a trace satisfy [p]. *)
Definition count_events (p : event -> bool) (tr : list event) : nat :=
  length (filter (fun e => p e = true) tr).

(** The time slept in a trace, in seconds. *)
Fixpoint sleep_seconds (tr : list event) : N :=
  match tr with
  | [] => 0
  | e :: post =>
      match ev_op e with
      | OpSleep seconds => seconds + sleep_seconds post
      | _ => sleep_seconds post
      end
  end.

(** The commits that went through. *)
Definition commits_done (tr : list event) : nat :=
  length (filter (fun e => is_commit e && ev_ok e = true) tr).

(** Whether the event after each successful event selected by [p]
    satisfies [q]. *)
Fixpoint next_after (p q : event -> bool) (tr : list event) : bool :=
  match tr with
  | [] => true
  | e :: post =>
      (if p e && ev_ok e
       then match post with e' :: _ => q e' | [] => false end
       else true)
      && next_after p q post
  end.

(** Whether the event after each event selected by [p], whether it
    succeeded or not, satisfies [q]. *)
Fixpoint always_next (p q : event -> bool) (tr : list event) : bool :=
  match tr with
  | [] => true
  | e :: post =>
      (if p e
       then match post with e' :: _ => q e' | [] => false end
       else true)
      && always_next p q post
  end.

(** Whether the rollback of line 157 was tried and raised. *)
Definition rollback_failed (tr : list event) : bool :=
  existsb (fun e => is_rollback e && negb (ev_ok e)) tr.

(** Whether nothing but the clean-up follows each failed event: no
    operation is tried again. *)
Fixpoint failures_fatal (tr : list event) : bool :=
  match tr with
  | [] => true
  | e :: post => (ev_ok e || forallb is_cleanup post) && failures_fatal post
  end.

(** A failed attempt of [wait_for_db] and the wait that follows it. *)
Definition retry_round (E : environment) (wait_seconds : N) (i : nat) : list event :=
  attempt_events E i ++ [Ev (OpSleep wait_seconds) true].

(** The frame the run works on after lines 99-111, when it gets there. *)
Definition prepared (U : unicode_data) (L : library) (E : environment)
  : option DataFrame :=
  df ← csv_frame E; prepare U L df.

(** How a column of the prepared frame comes from a column that was
    kept: the label is sanitized, and the values are the same unless the
    new label is [sale_date]; then each value is the date of its time
    stamp, and missing where [to_datetime] found none. *)
Definition coerced_or_same (U : unicode_data) (L : library)
    (col col' : pystr * Series) : Prop :=
  col'.1 = sanitize U col.1
  /\ if bool_decide (col'.1 = sale_date)
     then exists stamps,
            to_datetime L col.2 = Some stamps
            /\ dtype_of col'.2 = DObject
            /\ Forall2 (fun t c => match t with
                                   | Some ns => c = CDate (ns `div` ns_per_day)
                                   | None => c = CMissing
                                   end) stamps (values col'.2)
     else col'.2 = col.2.

(** What an event shows of the frame [df] when it is a statement or a
    bulk load. *)
Definition event_uses (U : unicode_data) (L : library) (schema table : pystr)
    (df : DataFrame) (e : event) : Prop :=
  match ev_op e with
  | OpExecute ddl => generate_create_table_sql U L df schema table = Some ddl
  | OpCopy statement csv =>
      statement = copy_statement schema table (columns df) /\ csv = to_csv L df
  | _ => True
  end.

Definition add_events (w : world) (evs : list event) : world :=
  {| w_db := w_db w; w_trace := w_trace w ++ evs |}.

(** The world a run starts in: a fresh session on a server holding
    [tables], nothing done yet. *)
Definition start (tables : gmap table_id (list row)) : world :=
  {| w_db := fresh_session tables; w_trace := [] |}.

(** The statement a frame gives (the generator never fails). *)
Definition ddl_of (U : unicode_data) (L : library) (df : DataFrame)
    (schema table : pystr) : pystr :=
  default [] (generate_create_table_sql U L df schema table).

(** A run from a server holding [tables]. *)
Definition run (U : unicode_data) (L : library) (E : environment)
    (schema table : pystr) (tables : gmap table_id (list row))
  : outcome unit * world :=
  main U L E schema table (start tables).

End Loader.

(** ** Sample data, for running the definitions *)

Module Samples.
Import PyStr Pandas Schema Db Loader.

(** A stand-in for the two library functions: a string that starts with a
    digit parses as the first day of 2024, a date is itself, nothing else
    parses, and a column with a boolean makes the call raise; the text
    written is the header line. *)
Definition toy_stamp (c : cell) : option Z :=
  match c with
  | CStr (d :: _) => if is_ascii_digit d then Some 1704067200000000000%Z else None
  | CDate days => Some (days * ns_per_day)%Z
  | _ => None
  end.

Definition toy_library : library :=
  {| to_datetime := fun s =>
       if existsb (fun c => match c with CBool _ => true | _ => false end) (values s)
       then None else Some (map toy_stamp (values s));
     to_csv := fun df => join (lit ",") (columns df) |}.

(** A stand-in for the server's reading of a [CREATE TABLE IF NOT EXISTS]
    text: the name is what stands between the keywords and the next space;
    it must be two plain identifiers around one dot, and each is folded to
    lower case, as PostgreSQL does with a name that is not quoted. *)
Definition fold_case (s : pystr) : pystr :=
  map (fun c => if is_ascii_upper c then c + 32 else c) s.

Definition plain_identifier (s : pystr) : bool :=
  match s with
  | [] => false
  | c :: r =>
      (is_ascii_lower c || is_ascii_upper c || is_underscore c)
      && forallb (fun c => in_class c || is_ascii_upper c || is_underscore c) r
  end.

Fixpoint before_space (s : pystr) : pystr :=
  match s with
  | [] => []
  | c :: r => if c =? 32 then [] else c :: before_space r
  end.

Definition pg_reading (ddl : pystr) : option table_id :=
  let keywords := lit "CREATE TABLE IF NOT EXISTS " in
  if startswith ddl keywords then
    match split_at 46 (before_space (drop (length keywords) ddl)) with
    | [schema; table] =>
        if plain_identifier schema && plain_identifier table
        then Some (fold_case schema, fold_case table)
        else None
    | _ => None
    end
  else None.

Definition int_column (zs : list Z) : Series :=
  {| dtype_of := DInt; values := map CInt zs |}.
Definition text_column (ts : list pystr) : Series :=
  {| dtype_of := DObject; values := map CStr ts |}.

(** The float64 column [read_csv] makes of the fields [1], empty, [3]. *)
Definition sparse_int_column : Series :=
  {| dtype_of := DFloat; values := [CFloat 1; CMissing; CFloat 3] |}.

(** The float64 column [read_csv] makes of a column of empty fields. *)
Definition blank_column : Series :=
  {| dtype_of := DFloat; values := [CMissing; CMissing] |}.

(** An object column with nothing in it. *)
Definition blank_object_column : Series :=
  {| dtype_of := DObject; values := [CMissing; CMissing] |}.

(** The frame of a file with the header [Unnamed: 0,Sale Date,Price,Owner]
    and two rows. *)
Definition housing : DataFrame :=
  [ (lit "Unnamed: 0", int_column [0; 1]%Z);
    (lit "Sale Date", text_column [lit "2024-01-01"; lit "soon"]);
    (lit "Price", int_column [250000; 300000]%Z);
    (lit "Owner", text_column [lit "A Corp"; lit "B LLC"]) ].

(** The same frame after lines 101-111. *)
Definition housing_prepared : DataFrame :=
  [ (lit "sale_date", {| dtype_of := DObject; values := [CDate 19723; CMissing] |});
    (lit "price", int_column [250000; 300000]%Z);
    (lit "owner", text_column [lit "A Corp"; lit "B LLC"]) ].

(** An environment in which the server answers at the third attempt and
    nothing fails afterwards. *)
Definition calm : environment :=
  {| csv_exists := true;
     csv_frame := Some housing;
     probe := fun i => (bool_decide (2 <= i)%nat, true);
     connect_ok := true;
     exists_ok := true;
     created_by := pg_reading;
     execute_ok := true;
     ddl_commit_ok := true;
     copy_fails_after := None;
     copy_commit_ok := true;
     rollback_ok := true |}.

(** The same with a bulk load that breaks after one row. *)
Definition broken_load : environment :=
  {| csv_exists := true;
     csv_frame := Some housing;
     probe := fun i => (bool_decide (2 <= i)%nat, true);
     connect_ok := true;
     exists_ok := true;
     created_by := pg_reading;
     execute_ok := true;
     ddl_commit_ok := true;
     copy_fails_after := Some 1%nat;
     copy_commit_ok := true;
     rollback_ok := true |}.

(** The same with a connection that is lost during the bulk load: the
    load breaks after one row and the rollback raises. *)
Definition lost_connection : environment :=
  {| csv_exists := true;
     csv_frame := Some housing;
     probe := fun i => (bool_decide (2 <= i)%nat, true);
     connect_ok := true;
     exists_ok := true;
     created_by := pg_reading;
     execute_ok := true;
     ddl_commit_ok := true;
     copy_fails_after := Some 1%nat;
     copy_commit_ok := true;
     rollback_ok := false |}.

(** The same with a server that never answers. *)
Definition unreachable : environment :=
  {| csv_exists := true;
     csv_frame := Some housing;
     probe := fun _ => (false, true);
     connect_ok := true;
     exists_ok := true;
     created_by := pg_reading;
     execute_ok := true;
     ddl_commit_ok := true;
     copy_fails_after := None;
     copy_commit_ok := true;
     rollback_ok := true |}.

(** The same with no file at the path given. *)
Definition no_file : environment :=
  {| csv_exists := false;
     csv_frame := None;
     probe := fun _ => (true, true);
     connect_ok := true;
     exists_ok := true;
     created_by := pg_reading;
     execute_ok := true;
     ddl_commit_ok := true;
     copy_fails_after := None;
     copy_commit_ok := true;
     rollback_ok := true |}.

Definition target : table_id := (lit "public", lit "nashville_housing").

(** A server that holds the target table with one row. *)
Definition loaded_before : gmap table_id (list row) :=
  {[ target := [[CDate 19000; CInt 1; CStr (lit "C Inc")]] ]}.

End Samples.

(** * Properties *)

(** ** The sanitizer *)

Module SanitizeProps.
Import PyStr.

Lemma re_sub_runs_squash p n :
  (forall run, run <> [] -> Forall (fun c => p c = true) run -> flush n run = [underscore]) ->
  forall s run, Forall (fun c => p c = true) run ->
    re_sub_runs p n run s = flush n run ++ squash p (negb (bool_decide (run = []))) s.
Proof.
  intros Hflush s. induction s as [|c r IH]; intros run Hrun; simpl.
  - by rewrite app_nil_r.
  - destruct (p c) eqn:Hc.
    + rewrite IH by (apply Forall_app; auto).
      rewrite (Hflush (run ++ [c])); [|by destruct run|by apply Forall_app; auto].
      rewrite bool_decide_eq_false_2 by (by destruct run). simpl.
      destruct run as [|a run']; [done|].
      rewrite (Hflush (a :: run')) by done. done.
    + rewrite IH by constructor. done.
Qed.

Lemma sub_non_alnum_squash s : sub_non_alnum s = squash not_in_class false s.
Proof.
  unfold sub_non_alnum. rewrite re_sub_runs_squash; [done| |constructor].
  intros [|a run] Hne _; [done|]. done.
Qed.

Lemma is_underscore_spec c : is_underscore c = true <-> c = underscore.
Proof. unfold is_underscore. apply N.eqb_eq. Qed.

Lemma sub_underscores_squash s : sub_underscores s = squash is_underscore false s.
Proof.
  unfold sub_underscores. rewrite re_sub_runs_squash; [done| |constructor].
  intros [|a [|b run]] Hne Hall; [done| |done].
  apply Forall_cons in Hall as [Ha _]. apply is_underscore_spec in Ha. by subst.
Qed.

Lemma in_class_not_underscore c : in_class c = true -> is_underscore c = false.
Proof.
  unfold in_class, is_ascii_digit, is_ascii_lower, is_underscore, underscore.
  intros H. apply N.eqb_neq. intros ->. vm_compute in H. discriminate.
Qed.

Lemma ident_char_cases c :
  ident_char c = true -> not_in_class c = is_underscore c.
Proof.
  unfold ident_char, not_in_class. destruct (in_class c) eqn:Hc; simpl.
  - intros _. symmetry. by apply in_class_not_underscore.
  - by intros ->.
Qed.

(** Output of the one-pass form on any input. *)
Lemma squash_class_shape s : forall b,
  forallb ident_char (squash not_in_class b s) = true
  /\ no_adjacent_underscores (squash not_in_class b s) = true
  /\ (b = true -> head_is is_underscore (squash not_in_class b s) = false).
Proof.
  induction s as [|c r IH]; intros b; [done|].
  cbn [squash]. destruct (not_in_class c) eqn:Hp.
  - destruct (IH true) as (Ha & Hn & Hh). destruct b; [done|].
    cbn [forallb no_adjacent_underscores head_is].
    rewrite Ha, Hn, (Hh eq_refl). done.
  - destruct (IH false) as (Ha & Hn & _).
    apply negb_false_iff in Hp.
    cbn [forallb no_adjacent_underscores head_is].
    unfold ident_char at 1.
    rewrite Hp, Ha, Hn, (in_class_not_underscore c Hp). done.
Qed.

(** The one-pass form leaves a string alone when its class characters are
    single underscores. *)
Lemma squash_fixed p s : forall b,
  Forall (fun c => p c = is_underscore c) s ->
  no_adjacent_underscores s = true ->
  (b = true -> head_is is_underscore s = false) ->
  squash p b s = s.
Proof.
  induction s as [|c r IH]; intros b Hall Hn Hb; simpl; [done|].
  apply Forall_cons in Hall as [Hc Hall]. simpl in Hn.
  apply andb_true_iff in Hn as [Hcr Hn]. rewrite Hc.
  destruct (is_underscore c) eqn:Hu.
  - simpl in Hcr. apply negb_true_iff in Hcr.
    destruct b; [specialize (Hb eq_refl); simpl in Hb; congruence|].
    apply is_underscore_spec in Hu. subst c. f_equal. by apply IH.
  - f_equal. by apply IH.
Qed.

Lemma lstrip_by_suffix p s : exists pre, s = pre ++ lstrip_by p s.
Proof.
  induction s as [|c r [pre IH]]; simpl; [by exists []|].
  destruct (p c); [|by exists []].
  exists (c :: pre). simpl. by f_equal.
Qed.

Lemma lstrip_by_head p s : head_is p (lstrip_by p s) = false.
Proof.
  induction s as [|c r IH]; simpl; [done|].
  destruct (p c) eqn:Hc; [done|]. simpl. done.
Qed.

Lemma rstrip_by_prefix p s : exists suf, s = rstrip_by p s ++ suf.
Proof.
  induction s as [|c r [suf IH]]; simpl; [by exists []|].
  destruct (rstrip_by p r) as [|a r'] eqn:Hr.
  - destruct (p c); [by exists (c :: r)|]. exists suf. simpl. by f_equal.
  - exists suf. simpl. by f_equal.
Qed.

Lemma rstrip_by_last p s : last_is p (rstrip_by p s) = false.
Proof.
  unfold last_is. induction s as [|c r IH]; simpl; [done|].
  destruct (rstrip_by p r) as [|a r'] eqn:Hr.
  - destruct (p c) eqn:Hc; simpl; [done|]. by rewrite Hc.
  - done.
Qed.

Lemma rstrip_by_head p q s :
  head_is q s = false -> head_is q (rstrip_by p s) = false.
Proof.
  destruct s as [|c r]; simpl; [done|]. intros Hc.
  destruct (rstrip_by p r); [destruct (p c)|]; done.
Qed.

Lemma lstrip_by_fixed p s : head_is p s = false -> lstrip_by p s = s.
Proof. destruct s as [|c r]; simpl; [done|]. by intros ->. Qed.

Lemma rstrip_by_fixed p s : last_is p s = false -> rstrip_by p s = s.
Proof.
  unfold last_is. induction s as [|c r IH]; simpl; [done|].
  destruct r as [|a r'].
  - simpl. by intros ->.
  - intros H. rewrite IH by done. done.
Qed.

Lemma no_adjacent_app s t :
  no_adjacent_underscores (s ++ t) = true ->
  no_adjacent_underscores s = true /\ no_adjacent_underscores t = true.
Proof.
  induction s as [|c r IH]; simpl; [done|].
  intros [Hc Hr]%andb_true_iff. destruct (IH Hr) as [Hs Ht].
  split; [|done]. rewrite Hs, andb_true_r.
  destruct r; simpl in *; [by rewrite andb_false_r|done].
Qed.

Lemma strip_by_sub p s : exists pre suf, s = pre ++ strip_by p s ++ suf.
Proof.
  unfold strip_by. destruct (lstrip_by_suffix p s) as [pre Hpre].
  destruct (rstrip_by_prefix p (lstrip_by p s)) as [suf Hsuf].
  exists pre, suf. by rewrite <- Hsuf.
Qed.

Lemma forallb_sub (p : char -> bool) pre s suf :
  forallb p (pre ++ s ++ suf) = true -> forallb p s = true.
Proof.
  rewrite !forallb_app. intros [_ [H _]%andb_true_iff]%andb_true_iff. done.
Qed.

Lemma tidy_strip_underscores s :
  forallb ident_char s = true -> no_adjacent_underscores s = true ->
  tidy (strip_by is_underscore s) = true.
Proof.
  intros Hall Hn. destruct (strip_by_sub is_underscore s) as (pre & suf & Hs).
  unfold tidy. rewrite Hs in Hall, Hn.
  rewrite (forallb_sub _ _ _ _ Hall).
  apply no_adjacent_app in Hn as [_ Hn]. apply no_adjacent_app in Hn as [Hn _].
  rewrite Hn. unfold strip_by.
  rewrite rstrip_by_head by apply lstrip_by_head.
  by rewrite rstrip_by_last.
Qed.



Lemma squash_all p s : forallb p s = true ->
  squash p true s = [] /\ squash p false s = if s is [] then [] else [underscore].
Proof.
  induction s as [|c r IH]; simpl; [done|].
  intros [-> Hr]%andb_true_iff. destruct (IH Hr) as [-> _]. done.
Qed.

Lemma squash_keeps p c s : forall b, p c = false -> c ∈ s -> c ∈ squash p b s.
Proof.
  induction s as [|a r IH]; intros b Hc Hin; [done|].
  simpl. apply elem_of_cons in Hin as [->|Hin].
  - rewrite Hc. set_solver.
  - pose proof (IH true Hc Hin) as IHt. pose proof (IH false Hc Hin) as IHf.
    destruct (p a), b; set_solver.
Qed.

Lemma lstrip_by_keeps p c s : p c = false -> c ∈ s -> c ∈ lstrip_by p s.
Proof.
  induction s as [|a r IH]; intros Hc Hin; [done|]. simpl.
  destruct (p a) eqn:Ha; [|done].
  apply elem_of_cons in Hin as [->|Hin]; [congruence|by apply IH].
Qed.

Lemma rstrip_by_keeps p c s : p c = false -> c ∈ s -> c ∈ rstrip_by p s.
Proof.
  induction s as [|a r IH]; intros Hc Hin; [done|]. simpl.
  apply elem_of_cons in Hin as [->|Hin].
  - destruct (rstrip_by p r); [rewrite Hc|]; set_solver.
  - pose proof (IH Hc Hin) as Hr.
    destruct (rstrip_by p r) as [|b r']; [by apply elem_of_nil in Hr|].
    apply elem_of_cons. by right.
Qed.

Section SanitizeFacts.
Context (U : unicode_data).

Lemma sanitize_core_tidy x : tidy (sanitize_core U x) = true.
Proof.
  unfold sanitize_core. rewrite sub_non_alnum_squash, sub_underscores_squash.
  destruct (squash_class_shape (py_lower U (py_strip U x)) false) as (Ha & Hn & _).
  rewrite (squash_fixed is_underscore) by (done || by apply Forall_true).
  by apply tidy_strip_underscores.
Qed.

Lemma ident_char_ascii c : ident_char c = true -> is_ascii c = true.
Proof.
  unfold ident_char, in_class, is_ascii_digit, is_ascii_lower, is_underscore,
    underscore, is_ascii.
  intros H. apply N.ltb_lt.
  repeat (apply orb_true_iff in H as [H|H] || apply andb_true_iff in H as [? H]);
  rewrite ?N.leb_le, ?N.eqb_eq in *; lia.
Qed.

Lemma ident_char_not_upper c : ident_char c = true -> is_ascii_upper c = false.
Proof.
  unfold ident_char, in_class, is_ascii_digit, is_ascii_lower, is_underscore,
    underscore, is_ascii_upper.
  intros H. apply andb_false_iff.
  repeat (apply orb_true_iff in H as [H|H] || apply andb_true_iff in H as [? H]);
  rewrite ?N.leb_le, ?N.eqb_eq, ?N.leb_gt in *; lia.
Qed.

Lemma in_class_not_space c : in_class c = true -> py_isspace U c = false.
Proof.
  intros H. unfold py_isspace.
  rewrite ident_char_ascii by (unfold ident_char; by rewrite H).
  unfold in_class, is_ascii_digit, is_ascii_lower in H.
  repeat (apply orb_true_iff in H as [H|H] || apply andb_true_iff in H as [? H]);
  rewrite ?N.leb_le in *;
  repeat (apply orb_false_iff; split); rewrite ?andb_false_iff, ?N.leb_gt, ?N.eqb_neq; lia.
Qed.

Lemma lower_from_fixed s : forall before,
  forallb ident_char s = true -> lower_from U before s = s.
Proof.
  induction s as [|c r IH]; intros before; simpl; [done|].
  intros [Hc Hr]%andb_true_iff. unfold lower_char.
  rewrite (ident_char_ascii c Hc), (ident_char_not_upper c Hc). simpl.
  by rewrite IH.
Qed.

Lemma tidy_parts s :
  tidy s = true ->
  forallb ident_char s = true /\ no_adjacent_underscores s = true
  /\ head_is is_underscore s = false /\ last_is is_underscore s = false.
Proof.
  unfold tidy. rewrite !andb_true_iff, !negb_true_iff. tauto.
Qed.

Lemma ident_not_underscore c :
  ident_char c = true -> is_underscore c = false -> in_class c = true.
Proof. unfold ident_char. intros H Hu. by rewrite Hu, orb_false_r in H. Qed.

Lemma forallb_last (p : char -> bool) s c :
  forallb p s = true -> last s = Some c -> p c = true.
Proof.
  intros Hall Hl. rewrite forallb_forall in Hall. apply Hall.
  apply list_elem_of_In. apply last_Some in Hl as [l' ->]. set_solver.
Qed.

Lemma tidy_head_class c r : tidy (c :: r) = true -> in_class c = true.
Proof.
  intros (Ha & _ & Hh & _)%tidy_parts. simpl in Ha, Hh.
  apply andb_true_iff in Ha as [Hc _]. by apply ident_not_underscore.
Qed.

Lemma tidy_ends_not_space s :
  tidy s = true ->
  head_is (py_isspace U) s = false /\ last_is (py_isspace U) s = false.
Proof.
  intros Ht. split.
  - destruct s as [|c r]; [done|]. simpl. apply in_class_not_space.
    by apply tidy_head_class in Ht.
  - apply tidy_parts in Ht as (Ha & _ & _ & Hl). unfold last_is in *.
    destruct (last s) as [c|] eqn:Hc; [|done].
    apply in_class_not_space, ident_not_underscore; [|done].
    by apply (forallb_last _ s).
Qed.

Lemma sanitize_core_fixed s : tidy s = true -> sanitize_core U s = s.
Proof.
  intros Ht. destruct (tidy_ends_not_space s Ht) as [Hh Hl].
  apply tidy_parts in Ht as (Ha & Hn & Hhu & Hlu).
  unfold sanitize_core, py_strip, py_lower, strip_by.
  rewrite (lstrip_by_fixed _ s Hh), (rstrip_by_fixed _ s Hl).
  rewrite lower_from_fixed by done.
  rewrite sub_non_alnum_squash, squash_fixed; [|
    apply Forall_forall; intros c Hc; apply ident_char_cases;
    rewrite forallb_forall in Ha; by apply Ha, list_elem_of_In | done | done].
  rewrite sub_underscores_squash, squash_fixed by (done || by apply Forall_true).
  by rewrite (lstrip_by_fixed _ s Hhu), (rstrip_by_fixed _ s Hlu).
Qed.

Lemma in_class_digit_or_lower c :
  in_class c = true -> py_isdigit U c = false -> is_ascii_lower c = true.
Proof.
  intros Hc. unfold py_isdigit.
  rewrite ident_char_ascii by (unfold ident_char; by rewrite Hc).
  unfold in_class in Hc. intros Hd. by rewrite Hd in Hc.
Qed.

Lemma lower_not_digit c : is_ascii_lower c = true -> py_isdigit U c = false.
Proof.
  unfold is_ascii_lower, py_isdigit, is_ascii, is_ascii_digit.
  intros [H1%N.leb_le H2%N.leb_le]%andb_true_iff.
  destruct (c <? 128) eqn:Hlt. 2:{ apply N.ltb_ge in Hlt. exfalso. lia. }
  apply andb_false_iff. right. apply N.leb_gt. lia.
Qed.

(** The three shapes of a result. *)
Lemma sanitize_cases x :
  (sanitize_core U x = [] /\ sanitize U x = lit "col_")
  \/ (exists c r, sanitize_core U x = c :: r /\ py_isdigit U c = true
        /\ sanitize U x = lit "col_" ++ c :: r)
  \/ (exists c r, sanitize_core U x = c :: r /\ is_ascii_lower c = true
        /\ sanitize U x = c :: r).
Proof.
  pose proof (sanitize_core_tidy x) as Ht. unfold sanitize.
  destruct (sanitize_core U x) as [|c r] eqn:Hs; [by left|right].
  destruct (py_isdigit U c) eqn:Hd; [left|right]; exists c, r; split_and!; try done.
  apply in_class_digit_or_lower; [|done]. by apply tidy_head_class in Ht.
Qed.

Lemma tidy_col_prefix c r :
  tidy (c :: r) = true -> tidy (lit "col_" ++ c :: r) = true.
Proof.
  intros Ht. pose proof (tidy_head_class c r Ht) as Hc.
  apply tidy_parts in Ht as (Ha & Hn & Hh & Hl). unfold tidy.
  cbn [lit app N_of_ascii forallb no_adjacent_underscores head_is].
  simpl in Hh. unfold last_is in *.
  change (last (_ :: _ :: _ :: _ :: c :: r)) with (last (c :: r)).
  rewrite Hl. simpl in Ha. rewrite Ha. simpl in Hn. rewrite Hn.
  rewrite Hh. vm_compute. done.
Qed.

Lemma sanitize_fixed s :
  tidy s = true -> head_is is_ascii_lower s = true -> sanitize U s = s.
Proof.
  intros Ht Hh. unfold sanitize. rewrite (sanitize_core_fixed s Ht).
  destruct s as [|c r]; [done|]. simpl in Hh. by rewrite lower_not_digit.
Qed.

Lemma sanitize_col_ : sanitize U (lit "col_") = lit "col".
Proof. by vm_compute. Qed.

Lemma sanitize_twice_cases x :
  sanitize U (sanitize U x) =
    if bool_decide (sanitize_core U x = []) then lit "col" else sanitize U x.
Proof.
  pose proof (sanitize_core_tidy x) as Ht.
  destruct (sanitize_cases x) as [[Hc Hs]|[(c & r & Hc & Hd & Hs)|(c & r & Hc & Hl & Hs)]];
    rewrite Hs, Hc; simpl.
  - apply sanitize_col_.
  - rewrite Hc in Ht.
    apply sanitize_fixed; [by apply tidy_col_prefix|done].
  - rewrite Hc in Ht. by apply sanitize_fixed.
Qed.

Lemma sanitize_exc_total x : sanitize_exc U x = Some (sanitize U x).
Proof.
  unfold sanitize_exc, sanitize. destruct (sanitize_core U x) as [|c r]; simpl; [done|].
  by destruct (py_isdigit U c).
Qed.

End SanitizeFacts.

Lemma sanitize_core_empty U x :
  sanitize_core U x = [] <->
  forallb not_in_class (py_lower U (py_strip U x)) = true.
Proof.
  unfold sanitize_core. rewrite sub_non_alnum_squash, sub_underscores_squash.
  set (s := py_lower U (py_strip U x)). split.
  - intros Hnil. apply forallb_forall. intros c Hc%list_elem_of_In.
    destruct (not_in_class c) eqn:Hp; [done|exfalso].
    assert (is_underscore c = false) as Hu
      by (apply in_class_not_underscore; by apply negb_false_iff in Hp).
    assert (c ∈ strip_by is_underscore
              (squash is_underscore false (squash not_in_class false s))) as Hin.
    { apply rstrip_by_keeps, lstrip_by_keeps; try done.
      by apply squash_keeps, squash_keeps. }
    rewrite Hnil in Hin. set_solver.
  - intros Hall. destruct (squash_all _ _ Hall) as [_ ->].
    destruct s; by vm_compute.
Qed.

(** The names of the sample file, and a name that starts with a digit. *)
Example sanitize_sale_date :
  sanitize ascii_only (lit "Sale Date") = lit "sale_date".
Proof. reflexivity. Qed.

Example sanitize_trims_and_collapses :
  sanitize ascii_only (lit "  Sale--Date__ ") = lit "sale_date".
Proof. reflexivity. Qed.

Example sanitize_leading_digit :
  sanitize ascii_only (lit "2nd Owner") = lit "col_2nd_owner".
Proof. reflexivity. Qed.

(** The empty name becomes [col_], and [col_] becomes [col]. *)
Lemma sanitize_not_idempotent_on_empty :
  sanitize ascii_only (sanitize ascii_only (lit "")) <> sanitize ascii_only (lit "").
Proof. vm_compute. discriminate. Qed.

Lemma sanitize_fallback_iff U x :
  sanitize U x = lit "col_" <-> sanitize_core U x = [].
Proof.
  pose proof (sanitize_core_tidy U x) as Ht.
  destruct (sanitize_cases U x)
    as [[Hc Hs]|[(c & r & Hc & Hd & Hs)|(c & r & Hc & Hl & Hs)]];
    rewrite Hs, Hc.
  - done.
  - split; [|done]. intros H. apply (f_equal length) in H.
    rewrite length_app in H. simpl in H. lia.
  - split; [|done]. intros H. rewrite Hc, H in Ht. by vm_compute in Ht.
Qed.

(** Where [sanitize] is idempotent: it never fails, and applying it twice
    gives the result of applying it once for every name except those it
    maps to the bare fallback [col_], the names without a character of
    [[0-9a-z]] once trimmed and lower-cased; for those the second
    application gives [col]. *)
Lemma sanitize_total_idempotent_unless_bare_fallback
    (U : unicode_data) (x : pystr) :
  sanitize_exc U x = Some (sanitize U x)
  /\ sanitize U (sanitize U x) =
       (if forallb not_in_class (py_lower U (py_strip U x))
        then lit "col" else sanitize U x)
  /\ (forallb not_in_class (py_lower U (py_strip U x)) = true
       <-> sanitize U x = lit "col_").
Proof.
  split; [apply sanitize_exc_total|].
  pose proof (sanitize_core_empty U x) as Hempty.
  split.
  - rewrite sanitize_twice_cases.
    destruct (forallb not_in_class (py_lower U (py_strip U x))).
    + by rewrite bool_decide_eq_true_2 by (by apply Hempty).
    + rewrite bool_decide_eq_false_2; [done|]. intros H%Hempty. done.
  - rewrite sanitize_fallback_iff. by symmetry.
Qed.

(** C2: [sanitize] is not idempotent at the column name [???], whatever
    the Unicode tables: line 29 makes [col_] of a name without a letter or
    a digit, and a second application strips the underscore and returns
    [col].  [main] relies on the two being the same name: it renames the
    columns with [sanitize] (line 105), the generator sanitizes the new
    names again for the statement (line 54), and the bulk load names them
    as they are (line 147). *)
Theorem sanitize_not_idempotent_on_punctuation_name (U : unicode_data) :
  sanitize U (lit "???") = lit "col_"
  /\ sanitize U (sanitize U (lit "???")) = lit "col"
  /\ sanitize U (sanitize U (lit "???")) <> sanitize U (lit "???").
Proof.
  assert (sanitize U (lit "???") = lit "col_") as H1 by reflexivity.
  assert (sanitize U (lit "col_") = lit "col") as H2 by reflexivity.
  rewrite H1, H2. by split_and!.
Qed.



End SanitizeProps.

(** ** Type inference and DDL *)

Module SchemaProps.
Import PyStr Pandas Schema Samples.

Section Inference.
Context (L : library).

Lemma dropna_all_missing s : all_missing s = true -> values (dropna s) = [].
Proof.
  unfold all_missing, dropna. simpl. induction (values s) as [|c r IH]; [done|].
  simpl. intros [Hc Hr]%andb_true_iff.
  rewrite filter_cons_False by (by rewrite Hc). by apply IH.
Qed.

Lemma try_date_all_missing s : all_missing s = true -> try_date L s = None.
Proof.
  intros H. unfold try_date, empty. by rewrite (dropna_all_missing s H).
Qed.

Lemma try_date_only_date s t : try_date L s = Some t -> t = DATE.
Proof.
  unfold try_date. destruct (negb _); [|done].
  destruct (to_datetime _ _) as [maybe|]; [|done].
  destruct (any_notnull maybe); congruence.
Qed.

End Inference.

(** The type priority on columns as the reader stores them. *)
Example integer_column_type :
  pg_type_from_series toy_library (int_column [1; 2; 3]%Z) = BIGINT.
Proof. reflexivity. Qed.

Example float_column_type :
  pg_type_from_series toy_library
    {| dtype_of := DFloat; values := [CFloat 1.5; CFloat 2] |} = DOUBLE_PRECISION.
Proof. reflexivity. Qed.

Example boolean_column_type :
  pg_type_from_series toy_library
    {| dtype_of := DBool; values := [CBool true; CBool false] |} = BOOLEAN.
Proof. reflexivity. Qed.

Example date_column_type :
  pg_type_from_series toy_library
    (text_column [lit "2024-01-01"; lit "not a date"]) = DATE.
Proof. reflexivity. Qed.

Example text_column_type :
  pg_type_from_series toy_library (text_column [lit "abc"; lit "def"]) = TEXT.
Proof. reflexivity. Qed.

(** C4, the part that fails: the column of the fields [1], empty, [3] is
    stored as float64; all its values that are not missing are integers,
    and its type is [DOUBLE PRECISION]. *)
Lemma sparse_integer_column_is_double :
  all_integral sparse_int_column = true
  /\ existsb isna (values sparse_int_column) = true
  /\ well_formed sparse_int_column = true
  /\ pg_type_from_series toy_library sparse_int_column = DOUBLE_PRECISION.
Proof. by vm_compute. Qed.

(** C4 (amended): a column infers [BIGINT] exactly when its dtype is an
    integer dtype, whatever its values and whatever a date parse of them
    would give (the rule comes first); such a column holds integers only,
    none missing.  A float column infers [DOUBLE PRECISION], also when its
    values are whole numbers and missing values. *)
Theorem integer_dtype_decides_bigint (L : library) (s : Series) :
  (pg_type_from_series L s = BIGINT <-> is_integer_dtype s = true)
  /\ (pg_type_from_series L s = DOUBLE_PRECISION <-> is_float_dtype s = true)
  /\ implb (well_formed s && is_integer_dtype s)
           (all_integral s && negb (existsb isna (values s))) = true.
Proof.
  unfold pg_type_from_series, is_integer_dtype, is_float_dtype, is_bool_dtype,
    well_formed, all_integral.
  destruct (dtype_of s) eqn:Hd; simpl.
  - split_and!; [done|done|]. rewrite andb_true_r.
    induction (values s) as [|c r IH]; [done|]. simpl.
    destruct c; simpl; done.
  - split_and!; [done|done|]. by rewrite andb_false_r.
  - split_and!; [done|done|]. by rewrite andb_false_r.
  - destruct (try_date L s) as [t|] eqn:Ht;
      [apply try_date_only_date in Ht as ->|];
      (split_and!; [done|done|by rewrite andb_false_r]).
Qed.

(** C5, the part that fails: the column [read_csv] makes of a column of
    empty fields is float64, and its type is [DOUBLE PRECISION]. *)
Lemma blank_column_is_double :
  all_missing blank_column = true
  /\ well_formed blank_column = true
  /\ pg_type_from_series toy_library blank_column = DOUBLE_PRECISION.
Proof. by vm_compute. Qed.

(** C5 (amended): the type of a column whose values are all missing is
    decided by its dtype alone: [TEXT] for an object column, since there is
    no value to parse as a date, and [BIGINT], [DOUBLE PRECISION] and
    [BOOLEAN] for the integer, float and boolean dtypes. *)
Theorem all_missing_column_type (L : library) (s : Series) :
  all_missing s = true ->
  pg_type_from_series L s =
    match dtype_of s with
    | DInt => BIGINT
    | DFloat => DOUBLE_PRECISION
    | DBool => BOOLEAN
    | DObject => TEXT
    end.
Proof.
  intros H. unfold pg_type_from_series, is_integer_dtype, is_float_dtype,
    is_bool_dtype.
  destruct (dtype_of s); try done. by rewrite (try_date_all_missing L s H).
Qed.

Lemma all_missing_column_type_witness :
  all_missing blank_object_column = true
  /\ pg_type_from_series toy_library blank_object_column = TEXT.
Proof.
  split; [reflexivity|].
  apply (all_missing_column_type toy_library blank_object_column). reflexivity.
Defined.

(** *** Columns under a label *)

Lemma select_label_elem (df : DataFrame) col : col ∈ df -> col ∈ select_label df col.1.
Proof. intros H. unfold select_label. by apply list_elem_of_filter. Qed.

Lemma select_label_spec (df : DataFrame) c col :
  col ∈ select_label df c <-> col ∈ df /\ col.1 = c.
Proof. unfold select_label. rewrite list_elem_of_filter. tauto. Qed.


Lemma select_label_none (df : DataFrame) c :
  c ∉ columns df -> select_label df c = [].
Proof.
  intros Hc. destruct (select_label df c) as [|col rest] eqn:Hsel; [done|].
  exfalso. apply Hc.
  assert (col ∈ select_label df c) as [Hin <-]%select_label_spec
    by (rewrite Hsel; by left).
  unfold columns. apply list_elem_of_fmap. by exists col.
Qed.

Lemma select_label_unique (df : DataFrame) col :
  NoDup (columns df) -> col ∈ df -> select_label df col.1 = [col].
Proof.
  unfold columns, select_label. induction df as [|a r IH]; intros Hnd Hin.
  - by apply elem_of_nil in Hin.
  - simpl in Hnd. apply NoDup_cons in Hnd as [Ha Hnd].
    apply elem_of_cons in Hin as [->|Hin].
    + rewrite filter_cons_True by done. f_equal.
      by apply (select_label_none r a.1).
    + rewrite filter_cons_False; [by apply IH|].
      intros Heq. apply Ha. rewrite Heq. apply list_elem_of_fmap. by exists col.
Qed.

Section Ddl.
Context (U : unicode_data) (L : library).

Lemma item_of_column (df : DataFrame) col :
  col ∈ df ->
  exists it, getitem df col.1 = Some it /\ pg_type_of_item L it = column_type L df col.
Proof.
  intros Hin. apply select_label_elem in Hin.
  unfold getitem, column_type.
  destruct (select_label df col.1) as [|a [|b rest]] eqn:Hsel.
  - by apply elem_of_nil in Hin.
  - apply list_elem_of_singleton in Hin as <-. by exists (ItemSeries col.2).
  - by exists (ItemFrame (a :: b :: rest)).
Qed.

Lemma column_parts (df df0 : DataFrame) :
  (forall col, col ∈ df -> col ∈ df0) ->
  mapM (fun c => it ← getitem df0 c;
                 Some (column_sql (sanitize U c) (pg_type_of_item L it)))
       (columns df)
  = Some (map (fun col => column_sql (sanitize U col.1) (column_type L df0 col)) df).
Proof.
  intros Hsub. apply mapM_Some. unfold columns.
  apply Forall2_fmap. apply Forall2_same_length_lookup. split; [done|].
  intros i col col' Hi Hi'. rewrite Hi in Hi'. injection Hi' as <-.
  destruct (item_of_column df0 col) as (it & -> & <-); [|done].
  apply Hsub. by eapply list_elem_of_lookup_2.
Qed.

Lemma generate_create_table_sql_total (df : DataFrame) (schema table : pystr) :
  generate_create_table_sql U L df schema table =
    Some (ddl_text schema table
            (join column_sep
               (map (fun col => column_sql (sanitize U col.1) (column_type L df col))
                    df))).
Proof.
  unfold generate_create_table_sql. by rewrite (column_parts df df).
Qed.


End Ddl.



End SchemaProps.

(** ** The loader *)

Module LoaderProps.
Import PyStr Pandas Schema Db Loader Samples SchemaProps.

Section Runs.
Context (U : unicode_data) (L : library) (E : environment).

Lemma wait_loop_spec s n : forall i w,
  wait_loop E s i n w =
    (if wait_succeeds E i n then Ok true else Raise DbNotReachable,
     add_events w (wait_events E s i n)).
Proof.
  unfold add_events.
  induction n as [|n IH]; intros i w; simpl.
  - rewrite app_nil_r. by destruct w.
  - unfold try_except, probe_once, attempt_events, attempt_ok.
    unfold mbind, M_bind, bind, perform, mret, M_ret, ret. simpl.
    destruct (probe E i) as [[] []]; simpl; rewrite ?IH; simpl;
      rewrite <- ?app_assoc; simpl; try done.
Qed.

Lemma wait_succeeds_existsb n : forall i,
  wait_succeeds E i n = existsb (attempt_ok E) (seq i n).
Proof. induction n as [|n IH]; intros i; simpl; [done|]. by rewrite IH. Qed.

Lemma with_table_lookup (made t : table_id) (tables : gmap table_id (list row)) :
  tables !! t = None ->
  with_table made tables !! t = if bool_decide (made = t) then Some [] else None.
Proof.
  intros Hnone. unfold with_table.
  destruct (tables !! made) eqn:Hmade.
  - rewrite Hnone, bool_decide_eq_false_2; [done|]. intros ->. congruence.
  - case_bool_decide as Heq.
    + subst. by rewrite lookup_insert_eq.
    + by rewrite lookup_insert_ne.
Qed.

(** The table the loader checked is there after the statement exactly
    when it is the table the server created. *)
Lemma has_table_created (made t : table_id) d :
  has_table d t = false ->
  has_table (commit (create_if_absent made d)) t = bool_decide (made = t).
Proof.
  unfold has_table, create_if_absent, commit. cbn [pending committed].
  intros Hnone%bool_decide_eq_false. rewrite <- eq_None_not_Some in Hnone.
  rewrite (with_table_lookup made t _ Hnone).
  destruct (decide (made = t)) as [Heq|Hne].
  - rewrite !(bool_decide_eq_true_2 (made = t)) by done.
    by apply bool_decide_eq_true_2.
  - rewrite !(bool_decide_eq_false_2 (made = t)) by done.
    apply bool_decide_eq_false_2. by intros [? ?].
Qed.

Ltac finish_path :=
  cbn [w_db w_trace negb]; unfold id; rewrite <- ?app_assoc; reflexivity.

Lemma load_transaction_spec df schema table ddl w :
  generate_create_table_sql U L df schema table = Some ddl ->
  load_transaction U L E df schema table w =
    let '(r, evs, d) :=
      transaction_path E (schema, table) ddl
        (copy_statement schema table (columns df)) (to_csv L df) (frame_rows df)
        (w_db w) in
    (r, {| w_db := d; w_trace := w_trace w ++ evs |}).
Proof.
  intros Hddl.
  unfold load_transaction, create_and_load, execute, transaction_path, load_path,
    reraised, table_exists, copy_expert, get_db, try_finally, try_except,
    perform, perform_partly, undo.
  rewrite Hddl.
  unfold mbind, M_bind, bind, mret, M_ret, ret, raise.
  destruct w as [d tr]. cbn [w_db w_trace].
  destruct (exists_ok E); cbn [negb];
    [|destruct (rollback_ok E); finish_path].
  destruct (has_table d (schema, table)) eqn:Hpresent; cbn [negb].
  - cbn [w_db w_trace]. unfold id. rewrite Hpresent.
    destruct (copy_fails_after E) as [k|];
      [destruct (rollback_ok E); finish_path|].
    destruct (copy_commit_ok E); [finish_path|].
    destruct (rollback_ok E); finish_path.
  - destruct (created_by E ddl) as [made|];
      [|destruct (rollback_ok E); finish_path].
    destruct (execute_ok E); cbn [negb w_db w_trace];
      [|destruct (rollback_ok E); finish_path].
    destruct (ddl_commit_ok E); cbn [negb w_db w_trace];
      [|destruct (rollback_ok E); finish_path].
    unfold id. rewrite (has_table_created made _ d Hpresent).
    case_bool_decide as Hmade.
    + subst made.
      destruct (copy_fails_after E) as [k|];
        [destruct (rollback_ok E); finish_path|].
      destruct (copy_commit_ok E); [finish_path|].
      destruct (rollback_ok E); finish_path.
    + destruct (rollback_ok E); finish_path.
Qed.

Lemma ddl_of_spec df schema table :
  generate_create_table_sql U L df schema table = Some (ddl_of U L df schema table).
Proof.
  unfold ddl_of.
  by rewrite (SchemaProps.generate_create_table_sql_total U L df schema table).
Qed.

(** The whole run written out. *)
Lemma run_spec schema table tables :
  run U L E schema table tables =
    if negb (csv_exists E) then (Raise CsvNotFound, start tables) else
    match prepared U L E with
    | None =>
        (Raise (if csv_frame E is Some _ then FrameError else CsvUnreadable),
         start tables)
    | Some df =>
        let probes := wait_events E 3 0 20 in
        if negb (wait_succeeds E 0 20) then
          (Raise DbNotReachable, add_events (start tables) probes)
        else if negb (connect_ok E) then
          (Raise (DbFailure OpConnect),
           add_events (start tables) (probes ++ [Ev OpConnect false]))
        else
          let '(r, evs, d) :=
            transaction_path E (schema, table) (ddl_of U L df schema table)
              (copy_statement schema table (columns df)) (to_csv L df)
              (frame_rows df) (fresh_session tables) in
          (r, {| w_db := d; w_trace := probes ++ Ev OpConnect true :: evs |})
    end.
Proof.
  unfold run, main, prepared, wait_for_db.
  unfold mbind at 1 2 3 4 5. unfold M_bind, bind, mret, M_ret, ret, raise.
  destruct (csv_exists E); cbn [negb]; [|done].
  destruct (csv_frame E) as [df0|]; cbn [option_bind mbind option_bind]; [|done].
  destruct (prepare U L df0) as [df|]; [|done].
  rewrite wait_loop_spec.
  destruct (wait_succeeds E 0 20); cbn [negb]; [|done].
  unfold perform at 1. cbn [w_db w_trace add_events start].
  destruct (connect_ok E); cbn [negb]; [|done].
  rewrite (load_transaction_spec df schema table _ _ (ddl_of_spec df schema table)).
  cbn [w_db w_trace]. unfold id.
  destruct (transaction_path _ _ _ _ _ _ _) as [[r evs] d].
  by rewrite <- app_assoc.
Qed.

(** *** [wait_for_db] *)

Lemma wait_events_shape s n : forall i,
  exists k, (k <= n)%nat
    /\ Forall (fun j => attempt_ok E j = false) (seq i k)
    /\ wait_events E s i n =
         flat_map (retry_round E s) (seq i k)
         ++ (if wait_succeeds E i n then attempt_events E (i + k) else [])
    /\ (if wait_succeeds E i n
        then (k < n)%nat /\ attempt_ok E (i + k) = true
        else k = n).
Proof.
  induction n as [|n IH]; intros i.
  - exists 0%nat. simpl. split_and!; done || lia.
  - simpl. destruct (attempt_ok E i) eqn:Hi; simpl.
    + exists 0%nat. simpl. rewrite Nat.add_0_r, app_nil_r.
      split_and!; done || lia.
    + destruct (IH (S i)) as (k & Hk & Hfail & Hev & Hend).
      exists (S k). rewrite Hev. simpl. unfold retry_round at 2.
      rewrite <- !app_assoc. simpl.
      replace (i + S k)%nat with (S i + k)%nat by lia.
      split_and!; try done; try lia.
      * by constructor.
      * destruct (wait_succeeds E (S i) n); [|lia].
        destruct Hend. split; [lia|done].
Qed.

Lemma probe_connects_app tr1 tr2 :
  probe_connects (tr1 ++ tr2) = (probe_connects tr1 + probe_connects tr2)%nat.
Proof. unfold probe_connects. by rewrite filter_app, length_app. Qed.

Lemma probe_connects_attempt i : probe_connects (attempt_events E i) = 1%nat.
Proof. unfold attempt_events. by destruct (probe E i).1. Qed.

Lemma probe_connects_wait s n : forall i,
  (probe_connects (wait_events E s i n) <= n)%nat.
Proof.
  induction n as [|n IH]; intros i; simpl; [done|].
  rewrite probe_connects_app, probe_connects_attempt.
  destruct (attempt_ok E i); [change (probe_connects []) with 0%nat; lia|].
  change (Ev (OpSleep s) true :: wait_events E s (S i) n)
    with ([Ev (OpSleep s) true] ++ wait_events E s (S i) n).
  rewrite probe_connects_app. specialize (IH (S i)).
  change (probe_connects [Ev (OpSleep s) true]) with 0%nat. lia.
Qed.

Lemma probe_connects_none tr :
  Forall (fun e => is_probe e = false) tr -> probe_connects tr = 0%nat.
Proof.
  unfold probe_connects. induction 1 as [|e tr He _ IH]; [done|].
  rewrite filter_cons_False; [done|].
  unfold is_probe, is_probe_connect in *. by destruct (ev_op e).
Qed.

(** What the transaction adds to the trace. *)
Lemma transaction_path_events t ddl statement csv rows d :
  let '(r, evs, _) := transaction_path E t ddl statement csv rows d in
  Forall (fun e => is_probe e = false) evs
  /\ failures_fatal evs = true
  /\ implb (succeeded r) (forallb ev_ok evs) = true
  /\ r <> Raise DbNotReachable.
Proof.
  unfold transaction_path, load_path, reraised, undo.
  destruct (exists_ok E), (has_table d t), (created_by E ddl) as [made|],
    (execute_ok E), (ddl_commit_ok E), (copy_fails_after E), (copy_commit_ok E),
    (rollback_ok E); try destruct (bool_decide (_ = t)); simpl;
    (split_and!; [by repeat constructor|done|done|done]).
Qed.

(** *** The transaction and the tables *)

Lemma has_table_fresh tables t :
  has_table (fresh_session tables) t = bool_decide (is_Some (tables !! t)).
Proof. done. Qed.


Lemma alter_created (tables : gmap table_id (list row)) t rows :
  alter (fun o => o ++ rows) t (<[t := []]> tables) = <[t := rows]> tables.
Proof.
  apply map_eq. intros t'. destruct (decide (t = t')) as [<-|Hne].
  - by rewrite lookup_alter_eq, !lookup_insert_eq.
  - by rewrite lookup_alter_ne, !lookup_insert_ne.
Qed.

Lemma wait_events_probe s n : forall i, Forall (fun e => is_probe e = true) (wait_events E s i n).
Proof.
  induction n as [|n IH]; intros i; simpl; [done|].
  apply Forall_app. split.
  - unfold attempt_events. destruct (probe E i).1; by repeat constructor.
  - destruct (attempt_ok E i); [done|]. constructor; [done|apply IH].
Qed.

Lemma next_after_skip p q tr1 tr2 :
  Forall (fun e => p e = false) tr1 ->
  next_after p q (tr1 ++ tr2) = next_after p q tr2.
Proof. induction 1 as [|e tr1 He _ IH]; simpl; [done|]. by rewrite He. Qed.

Lemma commits_done_skip tr1 tr2 :
  Forall (fun e => is_commit e = false) tr1 ->
  commits_done (tr1 ++ tr2) = commits_done tr2.
Proof.
  unfold commits_done. induction 1 as [|e tr1 He _ IH]; simpl; [done|].
  rewrite filter_cons_False; [done|]. by rewrite He.
Qed.

Lemma existsb_skip (p : event -> bool) tr1 tr2 :
  Forall (fun e => p e = false) tr1 ->
  existsb p (tr1 ++ tr2) = existsb p tr2.
Proof. induction 1 as [|e tr1 He _ IH]; simpl; [done|]. by rewrite He. Qed.

Lemma probe_is_nothing_else tr :
  Forall (fun e => is_probe e = true) tr ->
  Forall (fun e => is_execute e = false) tr
  /\ Forall (fun e => is_check e = false) tr
  /\ Forall (fun e => is_commit e = false) tr
  /\ Forall (fun e => is_copy e = false) tr.
Proof.
  intros H. split_and!; (eapply Forall_impl; [exact H|]);
    intros [[] ok]; done.
Qed.


(** The table was not there. *)
Lemma transaction_path_absent tables t ddl statement csv rows :
  tables !! t = None ->
  let '(r, evs, d) :=
    transaction_path E t ddl statement csv rows (fresh_session tables) in
  pending d = committed d
  /\ next_after is_execute is_commit evs = true
  /\ implb (existsb is_copy evs) (1 <=? commits_done evs)%nat = true
  /\ (commits_done evs <= 2)%nat
  /\ (succeeded r = true <-> commits_done evs = 2%nat)
  /\ implb (succeeded r) (bool_decide (created_by E ddl = Some t)) = true
  /\ committed d =
       (if succeeded r then <[t := rows]> tables
        else match commits_done evs, created_by E ddl with
             | S _, Some made => with_table made tables
             | _, _ => tables
             end)
  /\ (succeeded r = false ->
      committed d !! t =
        if (1 <=? commits_done evs)%nat
           && bool_decide (created_by E ddl = Some t)
        then Some [] else None).
Proof.
  intros Hnone. unfold transaction_path, load_path, reraised, undo.
  rewrite has_table_fresh, Hnone, bool_decide_eq_false_2 by (by intros [? ?]).
  destruct (created_by E ddl) as [made|].
  2:{ destruct (exists_ok E), (rollback_ok E); cbn;
        (split_and!; first [done | by apply Nat.leb_le]). }
  destruct (decide (made = t)) as [->|Hne].
  - rewrite !bool_decide_eq_true_2 by done.
    unfold create_if_absent, with_table, fresh_session, append_rows, commit,
      rollback.
    cbn [pending committed]. rewrite Hnone.
    destruct (exists_ok E), (execute_ok E), (ddl_commit_ok E),
      (copy_fails_after E), (copy_commit_ok E), (rollback_ok E);
      cbn -[alter insert]; rewrite ?alter_created, ?lookup_insert_eq;
      (split_and!; first [done | by apply Nat.leb_le]).
  - rewrite (bool_decide_eq_false_2 (made = t)),
      (bool_decide_eq_false_2 (Some made = Some t)) by congruence.
    pose proof (with_table_lookup made t tables Hnone) as Hlook.
    rewrite (bool_decide_eq_false_2 (made = t)) in Hlook by done.
    destruct (exists_ok E), (execute_ok E), (ddl_commit_ok E),
      (rollback_ok E); cbn -[with_table]; rewrite ?andb_false_r;
      (split_and!; first [done | by apply Nat.leb_le]).
Qed.

End Runs.

Section RunFacts.
Context (U : unicode_data) (L : library) (E : environment).
Context (schema table : pystr) (tables : gmap table_id (list row)).

Let result := run U L E schema table tables.

(** The part of a run before the transaction touches no table. *)
Lemma run_shape :
  (result.2 = start tables /\ succeeded result.1 = false)
  \/ (exists df probes, prepared U L E = Some df
        /\ Forall (fun e => is_probe e = true) probes
        /\ ((succeeded result.1 = false /\ w_db result.2 = fresh_session tables
             /\ (w_trace result.2 = probes
                 \/ w_trace result.2 = probes ++ [Ev OpConnect false]))
            \/ result =
                 let '(r, evs, d) :=
                   transaction_path E (schema, table) (ddl_of U L df schema table)
                     (copy_statement schema table (columns df)) (to_csv L df)
                     (frame_rows df) (fresh_session tables) in
                 (r, {| w_db := d; w_trace := (probes ++ [Ev OpConnect true]) ++ evs |}))).
Proof.
  unfold result. rewrite run_spec.
  destruct (csv_exists E); cbn [negb]; [|by left].
  destruct (prepared U L E) as [df|]; [|by left].
  right. exists df, (wait_events E 3 0 20). split; [done|].
  split; [apply wait_events_probe|]. cbn zeta.
  destruct (wait_succeeds E 0 20); cbn [negb]; [|left; split_and!; try done; by left].
  destruct (connect_ok E); cbn [negb]; [|left; split_and!; try done; by right].
  right. destruct (transaction_path _ _ _ _ _ _ _) as [[r evs] d].
  by rewrite <- app_assoc.
Qed.

End RunFacts.

Lemma probes_then_connect probes ok :
  Forall (fun e => is_probe e = true) probes ->
  let tr := probes ++ [Ev OpConnect ok] in
  Forall (fun e => is_execute e = false) tr
  /\ Forall (fun e => is_check e = false) tr
  /\ Forall (fun e => is_commit e = false) tr
  /\ Forall (fun e => is_copy e = false) tr.
Proof.
  intros (H1 & H2 & H3 & H4)%probe_is_nothing_else.
  split_and!; apply Forall_app; split; by repeat constructor.
Qed.



(** C1, the part that fails: on a server without the target table, with
    a bulk load that breaks after its first row, the run fails and the
    server keeps the table, empty. *)
Lemma failed_first_load_leaves_the_table :
  let result := run ascii_only toy_library broken_load (lit "public")
                  (lit "nashville_housing") ∅ in
  (∅ : gmap table_id (list row)) !! target = None
  /\ succeeded result.1 = false
  /\ existsb (fun e => is_execute e && ev_ok e) (w_trace result.2) = true
  /\ existsb (fun e => is_copy e && negb (ev_ok e)) (w_trace result.2) = true
  /\ committed (w_db result.2) !! target = Some [].
Proof. by vm_compute. Qed.

(** The table a run makes when the name is given in mixed case: the
    statement of line 57 carries the name unquoted and the server folds it
    to lower case, while the catalog query and the bulk load name it as
    given.  The run creates [public.housing], finds no [public.Housing] to
    load into, and fails. *)
Example mixed_case_name_creates_another_table :
  let result := run ascii_only toy_library calm (lit "public") (lit "Housing") ∅ in
  result.1 = Raise (DbFailure
               (OpCopy (copy_statement (lit "public") (lit "Housing")
                          (columns housing_prepared))
                       (to_csv toy_library housing_prepared)))
  /\ commits_done (w_trace result.2) = 1%nat
  /\ committed (w_db result.2) !! (lit "public", lit "housing") = Some []
  /\ committed (w_db result.2) !! (lit "public", lit "Housing") = None.
Proof. by vm_compute. Qed.

(** C1 (amended): when the target table is not there at the start of the
    run, the [CREATE TABLE] is followed at once by a commit of its own, and
    the bulk load starts only after that commit went through; there are at
    most two commits, and both went through exactly when the run succeeds.
    A run that succeeds leaves the target table holding every row of the
    frame, and then the table the server read in the statement is the
    target table.  A run that fails keeps no row: the server's tables are
    as they were when no commit went through, and otherwise as they were
    plus the table the server read in the statement, empty when it is new.
    So after a failed load the target table is there, empty, when the
    creation was committed and the server read the unquoted name as the
    name given, and is absent otherwise: the load is all or nothing, the
    creation is kept either way. *)
Theorem table_creation_committed_before_load
    (U : unicode_data) (L : library) (E : environment) (schema table : pystr)
    (tables : gmap table_id (list row)) :
  tables !! (schema, table) = None ->
  let r := (run U L E schema table tables).1 in
  let w := (run U L E schema table tables).2 in
  let rows := match prepared U L E with
              | Some df => frame_rows df
              | None => []
              end in
  let made := match prepared U L E with
              | Some df => created_by E (ddl_of U L df schema table)
              | None => None
              end in
  pending (w_db w) = committed (w_db w)
  /\ next_after is_execute is_commit (w_trace w) = true
  /\ implb (existsb is_copy (w_trace w)) (1 <=? commits_done (w_trace w))%nat = true
  /\ (commits_done (w_trace w) <= 2)%nat
  /\ (succeeded r = true <-> commits_done (w_trace w) = 2%nat)
  /\ implb (succeeded r) (bool_decide (made = Some (schema, table))) = true
  /\ committed (w_db w) =
       (if succeeded r then <[(schema, table) := rows]> tables
        else match commits_done (w_trace w), made with
             | S _, Some t => with_table t tables
             | _, _ => tables
             end)
  /\ (succeeded r = false ->
      committed (w_db w) !! (schema, table) =
        if (1 <=? commits_done (w_trace w))%nat
           && bool_decide (made = Some (schema, table))
        then Some [] else None).
Proof.
  intros Hnone r w rows made. subst r w rows made.
  destruct (run_shape U L E schema table tables)
    as [[-> Hr]|(df & probes & Hdf & Hprobes & [(Hr & Hdb & Htr)|Hrun])].
  - rewrite Hr. cbn [start w_db w_trace fresh_session pending committed].
    change (commits_done []) with 0%nat. by split_and!; try lia.
  - rewrite Hr, Hdb. cbn [fresh_session pending committed].
    destruct (probes_then_connect probes false Hprobes) as (H1 & _ & H3 & H4).
    destruct (probe_is_nothing_else probes Hprobes) as (H1' & _ & H3' & H4').
    destruct Htr as [-> | ->].
    + rewrite <- (app_nil_r probes).
      rewrite next_after_skip, commits_done_skip, existsb_skip by done.
      change (commits_done []) with 0%nat. by split_and!; try lia.
    + rewrite <- (app_nil_r (probes ++ _)).
      rewrite next_after_skip, commits_done_skip, existsb_skip by done.
      change (commits_done []) with 0%nat. by split_and!; try lia.
  - rewrite Hrun, Hdf.
    pose proof (transaction_path_absent E tables (schema, table)
      (ddl_of U L df schema table) (copy_statement schema table (columns df))
      (to_csv L df) (frame_rows df) Hnone) as Hpath.
    destruct (transaction_path _ _ _ _ _ _ _) as [[r evs] d].
    cbn [fst snd w_trace w_db].
    destruct (probes_then_connect probes true Hprobes) as (H1 & _ & H3 & H4).
    rewrite next_after_skip, commits_done_skip, existsb_skip by done.
    exact Hpath.
Qed.

Lemma table_creation_committed_before_load_witness :
  (∅ : gmap table_id (list row)) !! target = None
  /\ pending (w_db (run ascii_only toy_library broken_load (lit "public")
                      (lit "nashville_housing") ∅).2)
     = committed (w_db (run ascii_only toy_library broken_load (lit "public")
                          (lit "nashville_housing") ∅).2).
Proof.
  split; [reflexivity|].
  apply (table_creation_committed_before_load ascii_only toy_library
           broken_load (lit "public") (lit "nashville_housing") ∅).
  reflexivity.
Defined.

(** *** Preparing the frame *)

Section Prepare.
Context (U : unicode_data) (L : library).

Lemma drop_unnamed_spec (df : DataFrame) :
  exists kept, drop_unnamed U df = Some kept
    /\ Forall (fun col => col ∈ df /\ is_unnamed U col.1 = false) kept
    /\ (NoDup (columns df) ->
        kept = filter (fun col => is_unnamed U col.1 = false) df).
Proof.
  unfold drop_unnamed, getitem_list.
  set (labels := filter (fun c => is_unnamed U c = false) (columns df)).
  assert (forallb (fun c => bool_decide (select_label df c <> [])) labels = true)
    as ->.
  { apply forallb_forall. intros c Hc%list_elem_of_In.
    apply bool_decide_eq_true_2.
    apply list_elem_of_filter in Hc as [_ Hc].
    apply list_elem_of_fmap in Hc as (col & -> & Hcol).
    intros Hnil. pose proof (select_label_elem df col Hcol) as Hsel.
    rewrite Hnil in Hsel. by apply elem_of_nil in Hsel. }
  eexists. split; [done|]. split.
  - apply Forall_forall. intros col Hcol.
    apply list_elem_of_In, in_flat_map in Hcol as (c & Hc & Hcol).
    apply list_elem_of_In, list_elem_of_filter in Hc as [Hkeep _].
    apply list_elem_of_In, select_label_spec in Hcol as [Hin ->]. done.
  - intros Hnd. subst labels. unfold columns.
    assert (forall part : DataFrame, (forall col, col ∈ part -> col ∈ df) ->
      flat_map (select_label df)
        (filter (fun c => is_unnamed U c = false) (map fst part))
      = filter (fun col => is_unnamed U col.1 = false) part) as Hpart.
    { induction part as [|a r IH]; intros Hsub; [done|]. simpl.
      destruct (is_unnamed U a.1) eqn:Ha.
      - rewrite !filter_cons_False by (by rewrite Ha).
        apply IH. intros col Hcol. apply Hsub. by right.
      - rewrite !filter_cons_True by done. simpl.
        rewrite (select_label_unique df a Hnd) by (apply Hsub; by left).
        simpl. f_equal. apply IH. intros col Hcol. apply Hsub. by right. }
    by apply Hpart.
Qed.

Lemma sanitize_columns_spec (df : DataFrame) :
  sanitize_columns U df = Some (map (fun col => (sanitize U col.1, col.2)) df).
Proof.
  unfold sanitize_columns, set_columns, columns.
  rewrite bool_decide_eq_true_2 by (by rewrite !length_map). f_equal.
  induction df as [|a r IH]; [done|]. simpl. by rewrite IH.
Qed.

Lemma dt_date_values stamps :
  Forall2 (fun t c => match t with
                      | Some ns => c = CDate (ns `div` ns_per_day)
                      | None => c = CMissing
                      end) stamps (values (dt_date stamps)).
Proof. induction stamps as [|[ns|] r IH]; simpl; by constructor. Qed.

Lemma parse_sale_date_spec (df df' : DataFrame) :
  parse_sale_date L df = Some df' ->
  Forall2 (fun col col' =>
             col'.1 = col.1
             /\ if bool_decide (col'.1 = sale_date)
                then exists stamps,
                       to_datetime L col.2 = Some stamps
                       /\ col'.2 = dt_date stamps
                else col'.2 = col.2) df df'.
Proof.
  unfold parse_sale_date. case_bool_decide as Hin.
  - unfold getitem.
    destruct (select_label df sale_date) as [|c0 [|c1 rest]] eqn:Hsel; try done.
    destruct (to_datetime L c0.2) as [stamps|] eqn:Hstamps; [|done].
    simpl. intros [= <-]. unfold setitem.
    apply Forall2_fmap_r, Forall_Forall2_diag, Forall_forall.
    intros col Hcol. unfold compose. cbn beta.
    destruct (decide (col.1 = sale_date)) as [Hlabel|Hlabel];
      [rewrite (bool_decide_eq_true_2 _ Hlabel)
      |rewrite (bool_decide_eq_false_2 _ Hlabel)]; cbn [fst snd].
    + split; [done|]. rewrite bool_decide_eq_true_2 by done.
      exists stamps. split; [|done].
      assert (col ∈ select_label df sale_date) as Hc
        by (by apply select_label_spec).
      rewrite Hsel in Hc. by apply list_elem_of_singleton in Hc as ->.
    + split; [done|]. by rewrite bool_decide_eq_false_2.
  - intros [= <-]. apply Forall_Forall2_diag, Forall_forall.
    intros col Hcol. split; [done|]. rewrite bool_decide_eq_false_2; [done|].
    intros Heq. apply Hin. rewrite <- Heq. unfold columns.
    apply list_elem_of_fmap. by exists col.
Qed.

Lemma prepare_spec (df df' : DataFrame) :
  prepare U L df = Some df' ->
  exists kept, drop_unnamed U df = Some kept
    /\ Forall2 (coerced_or_same U L) kept df'.
Proof.
  unfold prepare. destruct (drop_unnamed_spec df) as (kept & Hkept & _).
  rewrite Hkept. simpl. rewrite sanitize_columns_spec. simpl.
  intros Hparse%parse_sale_date_spec. exists kept. split; [done|].
  apply Forall2_fmap_l in Hparse.
  eapply Forall2_impl; [exact Hparse|].
  intros col col' [Hlabel Hvalues]. simpl in *. split; [done|].
  destruct (bool_decide (col'.1 = sale_date)); [|done].
  destruct Hvalues as (stamps & Hstamps & ->).
  exists stamps. split_and!; [done|done|apply dt_date_values].
Qed.

(** When the preparation goes through: the run stops at line 111 when
    several columns are named [sale_date] and when [to_datetime] raises on
    the one that is. *)
Lemma prepare_cases (df kept : DataFrame) :
  drop_unnamed U df = Some kept ->
  let renamed := map (fun col => (sanitize U col.1, col.2)) kept in
  prepare U L df =
    match filter (fun col => sanitize U col.1 = sale_date) kept with
    | [] => Some renamed
    | [col] =>
        stamps ← to_datetime L col.2;
        Some (setitem renamed sale_date (dt_date stamps))
    | _ => None
    end.
Proof.
  intros Hkept renamed. unfold prepare. rewrite Hkept. simpl.
  rewrite sanitize_columns_spec. simpl. fold renamed.
  assert (select_label renamed sale_date
          = map (fun col => (sanitize U col.1, col.2))
              (filter (fun col => sanitize U col.1 = sale_date) kept)) as Hsel.
  { subst renamed. unfold select_label. clear Hkept.
    induction kept as [|a r IH]; [done|]. simpl.
    destruct (decide (sanitize U a.1 = sale_date)) as [Ha|Ha].
    - rewrite !filter_cons_True by done. simpl. by rewrite IH.
    - by rewrite !filter_cons_False. }
  assert (forall col,
            col ∈ filter (fun col => sanitize U col.1 = sale_date) kept ->
            sale_date ∈ columns renamed) as Hpresent.
  { intros col [Hlabel Hcol]%list_elem_of_filter. unfold columns, renamed.
    apply list_elem_of_fmap. exists (sanitize U col.1, col.2).
    split; [done|]. apply list_elem_of_fmap. by exists col. }
  unfold parse_sale_date, getitem. rewrite Hsel.
  destruct (filter _ kept) as [|c0 [|c1 rest]] eqn:Hf; simpl.
  - rewrite bool_decide_eq_false_2; [done|].
    intros Hin. unfold columns in Hin.
    apply list_elem_of_fmap in Hin as (col & Hlabel & Hcol).
    assert (col ∈ select_label renamed sale_date) as Hc
      by (by apply select_label_spec).
    rewrite Hsel in Hc. by apply elem_of_nil in Hc.
  - rewrite bool_decide_eq_true_2; [done|]. apply (Hpresent c0). by left.
  - rewrite bool_decide_eq_true_2; [done|]. apply (Hpresent c0). by left.
Qed.

End Prepare.

Section Uses.
Context (U : unicode_data) (L : library) (E : environment).

Lemma transaction_path_uses df schema table d :
  let '(_, evs, _) :=
    transaction_path E (schema, table) (ddl_of U L df schema table)
      (copy_statement schema table (columns df)) (to_csv L df)
      (frame_rows df) d in
  Forall (event_uses U L schema table df) evs.
Proof.
  pose proof (ddl_of_spec U L df schema table) as Hddl.
  unfold transaction_path, load_path, reraised, undo.
  destruct (exists_ok E), (has_table d (schema, table)),
    (created_by E (ddl_of U L df schema table)) as [made|], (execute_ok E),
    (ddl_commit_ok E), (copy_fails_after E), (copy_commit_ok E),
    (rollback_ok E);
    try case_bool_decide; simpl; repeat constructor; done.
Qed.

(** Every statement and bulk load of a run is made from the prepared
    frame. *)
Lemma run_uses_prepared schema table tables df :
  prepared U L E = Some df ->
  Forall (event_uses U L schema table df)
    (w_trace (run U L E schema table tables).2).
Proof.
  intros Hdf.
  destruct (run_shape U L E schema table tables)
    as [[-> Hr]|(df0 & probes & Hdf0 & Hprobes & [(Hr & Hdb & Htr)|Hrun])].
  - done.
  - assert (Forall (event_uses U L schema table df) probes) as Hp.
    { eapply Forall_impl; [exact Hprobes|]. by intros [[] ok]. }
    destruct Htr as [-> | ->]; [done|].
    apply Forall_app. split; [done|]. by repeat constructor.
  - rewrite Hdf in Hdf0. injection Hdf0 as <-. rewrite Hrun.
    pose proof (transaction_path_uses df schema table (fresh_session tables))
      as Hpath.
    destruct (transaction_path _ _ _ _ _ _ _) as [[r evs] d].
    cbn [snd w_trace]. apply Forall_app. split; [|done].
    apply Forall_app. split; [|by repeat constructor].
    eapply Forall_impl; [exact Hprobes|]. by intros [[] ok].
Qed.

Lemma run_without_frame schema table tables :
  prepared U L E = None -> w_trace (run U L E schema table tables).2 = [].
Proof.
  intros Hdf.
  destruct (run_shape U L E schema table tables)
    as [[-> Hr]|(df0 & probes & Hdf0 & _)]; [done|congruence].
Qed.

End Uses.

(** C9: the columns kept by line 102 are columns of the file whose
    lower-cased name does not start with [unnamed] (all of them, in order,
    when the names are distinct, as [read_csv] makes them); the frame the
    run works on has one column for each column kept, under its sanitized
    name, and every statement executed and every bulk load of the run is
    made from that frame alone.  A run that does not get past the
    preparation reaches no statement and no load. *)
Theorem unnamed_columns_are_dropped
    (U : unicode_data) (L : library) (E : environment) (schema table : pystr)
    (tables : gmap table_id (list row)) (df : DataFrame) :
  csv_frame E = Some df ->
  exists kept,
    drop_unnamed U df = Some kept
    /\ Forall (fun col => col ∈ df
                         /\ startswith (py_lower U col.1) (lit "unnamed") = false)
         kept
    /\ (NoDup (columns df) ->
        kept = filter (fun col =>
                         startswith (py_lower U col.1) (lit "unnamed") = false) df)
    /\ match prepare U L df with
       | Some df' =>
           Forall2 (coerced_or_same U L) kept df'
           /\ Forall (event_uses U L schema table df')
                (w_trace (run U L E schema table tables).2)
       | None => w_trace (run U L E schema table tables).2 = []
       end.
Proof.
  intros Hcsv. destruct (drop_unnamed_spec U df) as (kept & Hkept & Hall & Hfilter).
  exists kept. split_and!; try done.
  destruct (prepare U L df) as [df'|] eqn:Hprep.
  - destruct (prepare_spec U L df df' Hprep) as (kept' & Hkept' & Hrel).
    rewrite Hkept in Hkept'. injection Hkept' as <-. split; [done|].
    apply run_uses_prepared. unfold prepared. by rewrite Hcsv.
  - apply run_without_frame. unfold prepared. by rewrite Hcsv.
Qed.

Lemma unnamed_columns_are_dropped_witness :
  csv_frame calm = Some housing
  /\ exists kept, drop_unnamed ascii_only housing = Some kept
       /\ Forall (fun col => col ∈ housing
                    /\ startswith (py_lower ascii_only col.1) (lit "unnamed") = false)
            kept.
Proof.
  split; [reflexivity|].
  destruct (unnamed_columns_are_dropped ascii_only toy_library calm
              (lit "public") (lit "nashville_housing") ∅ housing eq_refl)
    as (kept & Hkept & Hall & _).
  exists kept. split; [exact Hkept|exact Hall].
Defined.

(** C10: in the frame the run works on, a column whose sanitized name is
    exactly [sale_date] holds, for each value of the column of the file,
    the date [to_datetime] parsed from it, and a missing value where it
    parsed none; every other column holds the values of the file
    unchanged.  The statement executed and the bulk load are made from
    that frame, so the coercion comes before type inference and
    loading. *)
Theorem sale_date_column_is_coerced
    (U : unicode_data) (L : library) (E : environment) (schema table : pystr)
    (tables : gmap table_id (list row)) (df df' : DataFrame) :
  csv_frame E = Some df ->
  prepare U L df = Some df' ->
  (exists kept, drop_unnamed U df = Some kept
     /\ Forall2 (coerced_or_same U L) kept df')
  /\ Forall (event_uses U L schema table df')
       (w_trace (run U L E schema table tables).2).
Proof.
  intros Hcsv Hprep. split; [by apply prepare_spec|].
  apply run_uses_prepared. unfold prepared. by rewrite Hcsv.
Qed.

Lemma sale_date_column_is_coerced_witness :
  csv_frame calm = Some housing
  /\ prepare ascii_only toy_library housing = Some housing_prepared
  /\ Forall (event_uses ascii_only toy_library (lit "public")
               (lit "nashville_housing") housing_prepared)
       (w_trace (run ascii_only toy_library calm (lit "public")
                   (lit "nashville_housing") ∅).2).
Proof.
  split; [reflexivity|]. split; [reflexivity|].
  apply (sale_date_column_is_coerced ascii_only toy_library calm
           (lit "public") (lit "nashville_housing") ∅ housing housing_prepared);
    reflexivity.
Defined.

(** C8: a run that reads and prepares its input calls [wait_for_db], which
    makes at most 20 connection attempts.  Every failed attempt is
    followed by a sleep of 3 seconds and then by the next attempt, until an
    attempt succeeds or 20 have failed: the trace starts with [k] failed
    rounds, [k] being the first attempt that succeeds, or 20 when none of
    the 20 does.  When none does, the run ends there with the
    database-unreachable error.  When attempt [k] succeeds, the run goes on
    with the connection of line 125, and what follows holds no further
    attempt and no sleep, and after any failed operation only the rollback
    and the close: nothing but the connection attempt is tried again, and
    the error is not the database-unreachable one.  A run that fails on its
    input makes no attempt at all. *)
Theorem only_connection_is_retried
    (U : unicode_data) (L : library) (E : environment) (schema table : pystr)
    (tables : gmap table_id (list row)) :
  let r := (run U L E schema table tables).1 in
  let tr := w_trace (run U L E schema table tables).2 in
  let reachable := existsb (attempt_ok E) (seq 0 20) in
  (probe_connects tr <= 20)%nat
  /\ if csv_exists E && bool_decide (is_Some (prepared U L E)) then
       exists k,
         (k <= 20)%nat
         /\ Forall (fun j => attempt_ok E j = false) (seq 0 k)
         /\ if reachable then
              (k < 20)%nat
              /\ attempt_ok E k = true
              /\ exists rest,
                   tr = flat_map (retry_round E 3) (seq 0 k)
                        ++ attempt_events E k ++ rest
                   /\ hd_error rest = Some (Ev OpConnect (connect_ok E))
                   /\ Forall (fun e => is_probe e = false) rest
                   /\ failures_fatal rest = true
                   /\ implb (succeeded r) (forallb ev_ok rest) = true
                   /\ r <> Raise DbNotReachable
            else
              k = 20%nat
              /\ tr = flat_map (retry_round E 3) (seq 0 20)
              /\ r = Raise DbNotReachable
     else tr = [] /\ succeeded r = false /\ r <> Raise DbNotReachable.
Proof.
  intros r tr reachable. subst r tr reachable. rewrite run_spec.
  destruct (csv_exists E); cbn [negb andb]; [|split; [cbn; lia|done]].
  destruct (prepared U L E) as [df|].
  2:{ rewrite bool_decide_eq_false_2 by (by intros [? ?]).
      split; [cbn; lia|]. by destruct (csv_frame E). }
  rewrite bool_decide_eq_true_2 by done. cbn zeta.
  pose proof (probe_connects_wait E 3 20 0) as Hcount.
  destruct (wait_events_shape E 3 20 0) as (k & Hk & Hfail & Hev & Hend).
  rewrite <- (wait_succeeds_existsb E 20 0).
  destruct (wait_succeeds E 0 20); cbn [negb].
  - destruct Hend as [Hlt Hok]. change (0 + k)%nat with k in Hok, Hev.
    destruct (connect_ok E); cbn [negb].
    + pose proof (transaction_path_events E (schema, table)
        (ddl_of U L df schema table) (copy_statement schema table (columns df))
        (to_csv L df) (frame_rows df) (fresh_session tables)) as Hpath.
      destruct (transaction_path _ _ _ _ _ _ _) as [[r evs] d].
      destruct Hpath as (Hprobe & Hfatal & Hsucc & Hr). cbn [fst snd w_trace].
      split.
      * change (Ev OpConnect true :: evs) with ([Ev OpConnect true] ++ evs).
        rewrite !probe_connects_app, (probe_connects_none evs Hprobe).
        change (probe_connects [Ev OpConnect true]) with 0%nat. lia.
      * exists k. split; [done|]. split; [done|]. split; [done|]. split; [done|].
        exists (Ev OpConnect true :: evs).
        split; [by rewrite Hev, <- app_assoc|].
        split; [done|]. split; [by constructor|]. by split_and!.
    + cbn [fst snd w_trace add_events start app]. split.
      * rewrite probe_connects_app.
        change (probe_connects [Ev OpConnect false]) with 0%nat. lia.
      * exists k. split; [done|]. split; [done|]. split; [done|]. split; [done|].
        exists [Ev OpConnect false].
        split; [by rewrite Hev, <- app_assoc|].
        split; [done|]. split; [by repeat constructor|]. by split_and!.
  - subst k. cbn [fst snd w_trace add_events start app]. split; [done|].
    exists 20%nat. split; [done|]. split; [done|].
    rewrite app_nil_r in Hev. by split_and!.
Qed.

End LoaderProps.

(** ** More on the loader *)

Module LoaderExtras.
Import PyStr Pandas Schema Db Loader Samples SchemaProps LoaderProps.

Section Waiting.
Context (E : environment).

Lemma sleep_seconds_app tr1 tr2 :
  sleep_seconds (tr1 ++ tr2) = sleep_seconds tr1 + sleep_seconds tr2.
Proof.
  induction tr1 as [|e tr1 IH]; simpl; [done|].
  destruct (ev_op e); rewrite IH; lia.
Qed.

Lemma sleep_seconds_attempt i : sleep_seconds (attempt_events E i) = 0.
Proof. unfold attempt_events. by destruct (probe E i).1. Qed.

Lemma rounds_measure s k : forall i,
  sleep_seconds (flat_map (retry_round E s) (seq i k)) = s * N.of_nat k
  /\ probe_connects (flat_map (retry_round E s) (seq i k)) = k.
Proof.
  induction k as [|k IH]; intros i; [simpl; split; [lia|done]|].
  destruct (IH (S i)) as [Hs Hp].
  cbn [seq flat_map]. unfold retry_round at 1 3.
  rewrite !sleep_seconds_app, !probe_connects_app, Hs, Hp.
  rewrite sleep_seconds_attempt, probe_connects_attempt. simpl.
  change (probe_connects [Ev (OpSleep s) true]) with 0%nat. split; lia.
Qed.

End Waiting.

(** X1: [wait_for_db], for any bound and any delay, never touches the
    database and records only its own connection attempts, closes and
    sleeps.  It returns [True] exactly when one of the first
    [max_retries] attempts succeeds, and otherwise raises the
    database-unreachable error.  It stops at the first attempt [k] that
    succeeds: it has then slept [k] times [wait_seconds] and tried [k + 1]
    connections; when it gives up it has tried [max_retries] connections
    and slept [max_retries] times [wait_seconds], the last sleep coming
    after the last attempt. *)
Theorem wait_for_db_stops_at_first_success
    (E : environment) (max_retries : nat) (wait_seconds : N) (w : world) :
  let r := (wait_for_db E max_retries wait_seconds w).1 in
  let w' := (wait_for_db E max_retries wait_seconds w).2 in
  let reachable := existsb (attempt_ok E) (seq 0 max_retries) in
  exists k evs,
    w' = add_events w evs
    /\ Forall (fun e => is_probe e = true) evs
    /\ (k <= max_retries)%nat
    /\ Forall (fun j => attempt_ok E j = false) (seq 0 k)
    /\ sleep_seconds evs = wait_seconds * N.of_nat k
    /\ r = (if reachable then Ok true else Raise DbNotReachable)
    /\ (if reachable
        then (k < max_retries)%nat /\ attempt_ok E k = true
             /\ probe_connects evs = S k
        else k = max_retries /\ probe_connects evs = max_retries).
Proof.
  intros r w' reachable. subst r w' reachable. unfold wait_for_db.
  rewrite wait_loop_spec, <- wait_succeeds_existsb. cbn [fst snd].
  destruct (wait_events_shape E wait_seconds max_retries 0)
    as (k & Hk & Hfail & Hev & Hend).
  destruct (rounds_measure E wait_seconds k 0) as [Hsleep Hconn].
  exists k, (wait_events E wait_seconds 0 max_retries).
  split; [done|]. split; [apply wait_events_probe|].
  split; [done|]. split; [done|].
  rewrite Hev, sleep_seconds_app, probe_connects_app, Hsleep, Hconn.
  destruct (wait_succeeds E 0 max_retries).
  - destruct Hend as [Hlt Hok]. change (0 + k)%nat with k in *.
    rewrite sleep_seconds_attempt, probe_connects_attempt.
    split_and!; try done; lia.
  - subst k. change (sleep_seconds []) with 0.
    change (probe_connects []) with 0%nat. split_and!; try done; lia.
Qed.

(** *** Whole runs *)

Lemma probe_excludes (p : event -> bool) probes :
  (forall e, is_probe e = true -> p e = false) ->
  Forall (fun e => is_probe e = true) probes ->
  Forall (fun e => p e = false) probes.
Proof. intros Hp H. eapply Forall_impl; [exact H|]. exact Hp. Qed.

Lemma count_events_skip (p : event -> bool) tr1 tr2 :
  Forall (fun e => p e = false) tr1 ->
  count_events p (tr1 ++ tr2) = count_events p tr2.
Proof.
  unfold count_events. induction 1 as [|e tr1 He _ IH]; simpl; [done|].
  rewrite filter_cons_False; [done|]. by rewrite He.
Qed.

Lemma count_events_none (p : event -> bool) tr :
  Forall (fun e => p e = false) tr -> count_events p tr = 0%nat.
Proof.
  intros H. rewrite <- (app_nil_r tr). by rewrite count_events_skip.
Qed.

Ltac not_a_probe := intros [[] ?]; done.

Section Transaction.
Context (E : environment).
Context (t : table_id) (ddl statement csv : pystr) (rows : list row).

Ltac path_cases d :=
  unfold transaction_path, load_path, reraised, undo;
  destruct (exists_ok E), (has_table d t), (created_by E ddl) as [made|],
    (execute_ok E), (ddl_commit_ok E), (copy_fails_after E), (copy_commit_ok E),
    (rollback_ok E); try case_bool_decide.

(** The clean-up of the transaction. *)
Lemma transaction_path_cleanup d :
  let '(r, evs, _) := transaction_path E t ddl statement csv rows d in
  last evs = Some (Ev OpClose true)
  /\ count_events is_close evs = 1%nat
  /\ count_events is_rollback evs = (if succeeded r then 0 else 1)%nat
  /\ next_after is_rollback is_close evs = true
  /\ always_next is_rollback is_close evs = true
  /\ Forall (fun e => is_connect e = false) evs.
Proof.
  path_cases d; simpl;
    (split_and!; [done|done|done|done|done|by repeat constructor]).
Qed.

(** The error of the transaction. *)
Lemma transaction_path_error d :
  let '(r, evs, _) := transaction_path E t ddl statement csv rows d in
  Forall (fun e => ev_ok e = true
                   \/ r = Raise (DbFailure (if rollback_failed evs
                                            then OpRollback else ev_op e))) evs
  /\ match r with
     | Ok _ => True
     | Raise (DbFailure o) => Ev o false ∈ evs /\ is_probe (Ev o false) = false
     | Raise _ => False
     end
  /\ rollback_failed evs = negb (succeeded r) && negb (rollback_ok E)
  /\ succeeded r = ends_committed evs
  /\ (2 <= length evs)%nat.
Proof.
  path_cases d; simpl;
    (split; [|split; [|split; [|split]]];
     [ repeat (apply Forall_cons_2; [first [by left | by right]|]);
       apply Forall_nil_2
     | first [done | split; [set_solver|done]]
     | done
     | done
     | lia ]).
Qed.

(** How often each operation is tried. *)
Lemma transaction_path_counts d :
  let '(_, evs, _) := transaction_path E t ddl statement csv rows d in
  head_is_check evs = true
  /\ count_events is_check evs = 1%nat
  /\ (count_events is_execute evs <= 1)%nat
  /\ (count_events is_copy evs <= 1)%nat
  /\ (count_events is_commit evs <= 2)%nat
  /\ (count_events is_commit evs
      <= count_events is_execute evs + count_events is_copy evs)%nat.
Proof.
  path_cases d; vm_compute; (split; [reflexivity|split_and!; lia]).
Qed.

End Transaction.

Section WholeRuns.
Context (U : unicode_data) (L : library) (E : environment).
Context (schema table : pystr) (tables : gmap table_id (list row)).

(** The four ways a run goes. *)
Lemma run_cases :
  (exists e, run U L E schema table tables = (Raise e, start tables)
             /\ (e = CsvNotFound \/ e = CsvUnreadable \/ e = FrameError)
             /\ (csv_exists E = false \/ prepared U L E = None))
  \/ (exists df probes r tr,
        prepared U L E = Some df /\ csv_exists E = true
        /\ Forall (fun e => is_probe e = true) probes
        /\ run U L E schema table tables
           = (r, {| w_db := fresh_session tables; w_trace := tr |})
        /\ ((r = Raise DbNotReachable /\ tr = probes)
            \/ (r = Raise (DbFailure OpConnect)
                /\ tr = probes ++ [Ev OpConnect false])))
  \/ (exists df probes,
        prepared U L E = Some df /\ csv_exists E = true
        /\ Forall (fun e => is_probe e = true) probes
        /\ run U L E schema table tables =
           let '(r, evs, d) :=
             transaction_path E (schema, table) (ddl_of U L df schema table)
               (copy_statement schema table (columns df)) (to_csv L df)
               (frame_rows df) (fresh_session tables) in
           (r, {| w_db := d; w_trace := (probes ++ [Ev OpConnect true]) ++ evs |})).
Proof.
  rewrite run_spec.
  destruct (csv_exists E); cbn [negb].
  2:{ left. eexists. split_and!; [done|by left|by left]. }
  destruct (prepared U L E) as [df|].
  2:{ left. eexists. split; [done|]. split; [|by right].
      destruct (csv_frame E); [by right; right|by right; left]. }
  cbn zeta. pose proof (wait_events_probe E 3 20 0) as Hprobes.
  destruct (wait_succeeds E 0 20); cbn [negb].
  - destruct (connect_ok E); cbn [negb].
    + right. right. exists df, (wait_events E 3 0 20). split_and!; try done.
      destruct (transaction_path _ _ _ _ _ _ _) as [[r evs] d].
      by rewrite <- app_assoc.
    + right. left. eexists df, (wait_events E 3 0 20), _, _.
      split_and!; try done. by right.
  - right. left. eexists df, (wait_events E 3 0 20), _, _.
    split_and!; try done. by left.
Qed.

End WholeRuns.

Lemma ends_committed_after tr1 tr2 :
  (2 <= length tr2)%nat -> ends_committed (tr1 ++ tr2) = ends_committed tr2.
Proof.
  intros Hlen. unfold ends_committed. rewrite reverse_app.
  rewrite <- length_reverse in Hlen.
  destruct (reverse tr2) as [|e1 [|e2 rest]]; simpl in *; done || lia.
Qed.

Lemma ends_committed_not_close tr e :
  is_close e = false -> ends_committed (tr ++ [e]) = false.
Proof.
  intros He. unfold ends_committed. rewrite reverse_snoc.
  destruct (reverse tr); by rewrite ?He.
Qed.

Lemma ends_committed_probes tr :
  Forall (fun e => is_probe e = true) tr -> ends_committed tr = false.
Proof.
  intros H. destruct tr as [|e0 tr0] using rev_ind; [done|].
  apply ends_committed_not_close.
  apply Forall_app in H as [_ H]. apply Forall_cons in H as [H _].
  by destruct e0 as [[] ?].
Qed.

(** X2: when the file is not there, cannot be read, or its frame cannot
    be prepared (line 111 raising), the run fails with the error of that
    step and has done nothing: no connection attempt, no wait, no
    operation on the database. *)
Theorem input_failure_before_any_operation
    (U : unicode_data) (L : library) (E : environment) (schema table : pystr)
    (tables : gmap table_id (list row)) :
  csv_exists E = false \/ prepared U L E = None ->
  run U L E schema table tables =
    (Raise (if csv_exists E
            then (if csv_frame E is Some _ then FrameError else CsvUnreadable)
            else CsvNotFound),
     start tables).
Proof.
  intros H. rewrite run_spec. destruct (csv_exists E); cbn [negb]; [|done].
  destruct H as [H|H]; [done|]. by rewrite H.
Qed.

Lemma input_failure_before_any_operation_witness :
  (csv_exists no_file = false \/ prepared ascii_only toy_library no_file = None)
  /\ w_trace (run ascii_only toy_library no_file (lit "public")
                (lit "nashville_housing") loaded_before).2 = [].
Proof.
  split; [by left|].
  rewrite (input_failure_before_any_operation ascii_only toy_library no_file
             (lit "public") (lit "nashville_housing") loaded_before);
    [reflexivity|by left].
Defined.

Lemma count_events_app (p : event -> bool) tr1 tr2 :
  count_events p (tr1 ++ tr2) = (count_events p tr1 + count_events p tr2)%nat.
Proof. unfold count_events. by rewrite filter_app, length_app. Qed.

Lemma next_after_none p q tr :
  Forall (fun e => p e = false) tr -> next_after p q tr = true.
Proof.
  intros H. rewrite <- (app_nil_r tr). by rewrite next_after_skip.
Qed.

Lemma always_next_skip p q tr1 tr2 :
  Forall (fun e => p e = false) tr1 ->
  always_next p q (tr1 ++ tr2) = always_next p q tr2.
Proof. induction 1 as [|e tr1 He _ IH]; simpl; [done|]. by rewrite He. Qed.

Lemma always_next_none p q tr :
  Forall (fun e => p e = false) tr -> always_next p q tr = true.
Proof.
  intros H. rewrite <- (app_nil_r tr). by rewrite always_next_skip.
Qed.

Lemma existsb_none (p : event -> bool) tr :
  Forall (fun e => p e = false) tr -> existsb p tr = false.
Proof.
  intros H. rewrite <- (app_nil_r tr). by rewrite existsb_skip.
Qed.

(** The events before the transaction: attempts, sleeps, the connection. *)
Lemma prefix_excludes (p : event -> bool) probes ok :
  (forall e, is_probe e = true -> p e = false) ->
  p (Ev OpConnect ok) = false ->
  Forall (fun e => is_probe e = true) probes ->
  Forall (fun e => p e = false) (probes ++ [Ev OpConnect ok]).
Proof.
  intros Hp Hc H. apply Forall_app. split; [by apply probe_excludes|].
  by repeat constructor.
Qed.

(** X3: a run that opened the connection of line 125 closes it, and the
    close is the last thing it does; it rolls back exactly once when the
    transaction failed and never when it succeeded, and the rollback,
    whether it goes through or raises, comes right before the close.  A run
    that did not open the connection does neither. *)
Theorem connection_is_always_closed
    (U : unicode_data) (L : library) (E : environment) (schema table : pystr)
    (tables : gmap table_id (list row)) :
  let r := (run U L E schema table tables).1 in
  let tr := w_trace (run U L E schema table tables).2 in
  let connected := existsb (fun e => is_connect e && ev_ok e) tr in
  count_events is_close tr = (if connected then 1 else 0)%nat
  /\ count_events is_rollback tr
     = (if connected && negb (succeeded r) then 1 else 0)%nat
  /\ next_after is_rollback is_close tr = true
  /\ always_next is_rollback is_close tr = true
  /\ (if connected
      then last tr = Some (Ev OpClose true)
      else Forall (fun e => is_cleanup e = false) tr).
Proof.
  intros r tr connected. subst r tr connected.
  destruct (run_cases U L E schema table tables)
    as [(e & -> & _)
       |[(df & probes & r & tr & _ & _ & Hprobes & -> & Htr)
        |(df & probes & _ & _ & Hprobes & ->)]].
  - by vm_compute.
  - cbn [fst snd w_trace].
    assert (Forall (fun e => is_cleanup e = false) tr
            /\ Forall (fun e => (is_connect e && ev_ok e) = false) tr
            /\ Forall (fun e => is_close e = false) tr
            /\ Forall (fun e => is_rollback e = false) tr) as (H1 & H2 & H3 & H4).
    { destruct Htr as [[_ ->]|[_ ->]].
      - split_and!; by apply probe_excludes; [not_a_probe|].
      - split_and!; by apply prefix_excludes; [not_a_probe| |]. }
    rewrite existsb_none, !count_events_none by done.
    by rewrite next_after_none, always_next_none.
  - pose proof (transaction_path_cleanup E (schema, table)
      (ddl_of U L df schema table) (copy_statement schema table (columns df))
      (to_csv L df) (frame_rows df) (fresh_session tables)) as Hpath.
    destruct (transaction_path _ _ _ _ _ _ _) as [[r evs] d].
    destruct Hpath as (Hlast & Hclose & Hroll & Hnext & Halways & Hconn).
    cbn [fst snd w_trace].
    rewrite !count_events_skip, next_after_skip, always_next_skip
      by (by apply prefix_excludes; [not_a_probe| |]).
    rewrite existsb_app, existsb_skip by (by apply probe_excludes; [not_a_probe|]).
    cbn [existsb is_connect ev_op ev_ok andb orb].
    rewrite last_app, Hlast, Hclose, Hroll.
    split_and!; try done. by destruct (succeeded r).
Qed.

(** A connection lost during the bulk load: the load fails, the rollback
    raises, and the error of the run is the error of the rollback. *)
Example lost_connection_error :
  let result := run ascii_only toy_library lost_connection (lit "public")
                  (lit "nashville_housing") ∅ in
  result.1 = Raise (DbFailure OpRollback)
  /\ existsb (fun e => is_copy e && negb (ev_ok e)) (w_trace result.2) = true
  /\ rollback_failed (w_trace result.2) = true
  /\ last (w_trace result.2) = Some (Ev OpClose true).
Proof. by vm_compute. Qed.

(** X4: the error a run ends with is the error of an operation that
    failed.  When the rollback of line 157 went through, or was not
    reached, every failed event of the trace other than an attempt of
    [wait_for_db] is the operation whose failure the run raises: the close
    does not replace it.  When the rollback itself raised, its error
    replaces the one being handled and is the error of the run.  A run that
    raises the failure of an operation has that failed operation in its
    trace, and the run succeeds exactly when its trace ends with a
    successful commit followed by the close. *)
Theorem failed_operation_is_reported
    (U : unicode_data) (L : library) (E : environment) (schema table : pystr)
    (tables : gmap table_id (list row)) :
  let r := (run U L E schema table tables).1 in
  let tr := w_trace (run U L E schema table tables).2 in
  Forall (fun e => ev_ok e = true \/ is_probe e = true
                   \/ r = Raise (DbFailure (if rollback_failed tr
                                            then OpRollback else ev_op e))) tr
  /\ match r with
     | Raise (DbFailure o) => Ev o false ∈ tr /\ is_probe (Ev o false) = false
     | _ => True
     end
  /\ implb (rollback_failed tr) (negb (rollback_ok E)) = true
  /\ succeeded r = ends_committed tr.
Proof.
  intros r tr. subst r tr.
  destruct (run_cases U L E schema table tables)
    as [(e & -> & He & _)
       |[(df & probes & r & tr & _ & _ & Hprobes & -> & Htr)
        |(df & probes & _ & _ & Hprobes & ->)]].
  - cbn [fst snd w_trace start]. split_and!; [done| |done|done].
    by destruct He as [->|[->| ->]].
  - cbn [fst snd w_trace].
    assert (rollback_failed tr = false) as Hroll.
    { unfold rollback_failed.
      destruct Htr as [[_ ->]|[_ ->]]; apply existsb_none.
      - by apply probe_excludes; [not_a_probe|].
      - by apply prefix_excludes; [not_a_probe| |]. }
    rewrite Hroll.
    assert (Forall (fun e => ev_ok e = true \/ is_probe e = true
                             \/ r = Raise (DbFailure (ev_op e))) probes) as Hp.
    { eapply Forall_impl; [exact Hprobes|]. intros e He. right. by left. }
    destruct Htr as [[-> ->]|[-> ->]].
    + split_and!; [done|done|done|]. by rewrite ends_committed_probes.
    + split_and!.
      * apply Forall_app. split; [done|].
        apply Forall_cons_2; [right; by right|apply Forall_nil_2].
      * set_solver.
      * done.
      * done.
      * by rewrite ends_committed_not_close.
  - pose proof (transaction_path_error E (schema, table)
      (ddl_of U L df schema table) (copy_statement schema table (columns df))
      (to_csv L df) (frame_rows df) (fresh_session tables)) as Hpath.
    destruct (transaction_path _ _ _ _ _ _ _) as [[r evs] d].
    destruct Hpath as (Hall & Hr & Hroll & Hsucc & Hlen). cbn [fst snd w_trace].
    assert (rollback_failed ((probes ++ [Ev OpConnect true]) ++ evs)
            = rollback_failed evs) as ->.
    { unfold rollback_failed. apply existsb_skip.
      by apply prefix_excludes; [not_a_probe| |]. }
    split_and!.
    + apply Forall_app. split.
      * apply Forall_app.
        split; [|apply Forall_cons_2; [by left|apply Forall_nil_2]].
        eapply Forall_impl; [exact Hprobes|]. intros e He. right. by left.
      * eapply Forall_impl; [exact Hall|]. intros e [He|He]; [by left|].
        right. by right.
    + destruct r as [|[]]; try done. destruct Hr as [Hin Hnp].
      split; [|done]. apply elem_of_app. by right.
    + rewrite Hroll. by destruct (succeeded r), (rollback_ok E).
    + by rewrite ends_committed_after.
Qed.

(** X5: in a run the connection of line 125 is opened at most once, the
    catalog is queried at most once and it is the first thing done on the
    connection, at most one statement is executed, at most one bulk load
    is started, and there are at most two commits, never more than there
    are statements and bulk loads. *)
Theorem each_operation_at_most_once
    (U : unicode_data) (L : library) (E : environment) (schema table : pystr)
    (tables : gmap table_id (list row)) :
  let tr := w_trace (run U L E schema table tables).2 in
  (count_events is_connect tr <= 1)%nat
  /\ next_after is_connect is_check tr = true
  /\ (count_events is_check tr <= count_events is_connect tr)%nat
  /\ (count_events is_execute tr <= count_events is_check tr)%nat
  /\ (count_events is_copy tr <= count_events is_check tr)%nat
  /\ (count_events is_commit tr
      <= count_events is_execute tr + count_events is_copy tr)%nat.
Proof.
  intros tr. subst tr.
  destruct (run_cases U L E schema table tables)
    as [(e & -> & _)
       |[(df & probes & r & tr & _ & _ & Hprobes & -> & Htr)
        |(df & probes & _ & _ & Hprobes & ->)]].
  - vm_compute. split_and!; done || lia.
  - cbn [snd w_trace].
    assert (next_after is_connect is_check tr = true) as Hnext.
    { destruct Htr as [[_ ->]|[_ ->]].
      - by apply next_after_none, probe_excludes; [not_a_probe|].
      - rewrite next_after_skip by (by apply probe_excludes; [not_a_probe|]).
        done. }
    assert (count_events is_check tr = 0 /\ count_events is_execute tr = 0
            /\ count_events is_copy tr = 0 /\ count_events is_commit tr = 0
            /\ count_events is_connect tr <= 1)%nat as (-> & -> & -> & -> & H).
    { destruct Htr as [[_ ->]|[_ ->]].
      - rewrite !count_events_none by (by apply probe_excludes; [not_a_probe|]).
        split_and!; done || lia.
      - rewrite !(count_events_none is_check), !(count_events_none is_execute),
          !(count_events_none is_copy), !(count_events_none is_commit)
          by (by apply prefix_excludes; [not_a_probe| |]).
        rewrite count_events_app, count_events_none
          by (by apply probe_excludes; [not_a_probe|]).
        split_and!; done || (vm_compute; lia). }
    split_and!; done || lia.
  - pose proof (transaction_path_counts E (schema, table)
      (ddl_of U L df schema table) (copy_statement schema table (columns df))
      (to_csv L df) (frame_rows df) (fresh_session tables)) as Hpath.
    pose proof (transaction_path_cleanup E (schema, table)
      (ddl_of U L df schema table) (copy_statement schema table (columns df))
      (to_csv L df) (frame_rows df) (fresh_session tables)) as Hclean.
    destruct (transaction_path _ _ _ _ _ _ _) as [[r evs] d].
    destruct Hpath as (Hhead & Hcheck & Hexec & Hcopy & Hcommit & Hcommit').
    destruct Hclean as (_ & _ & _ & _ & _ & Hconn). cbn [snd w_trace].
    rewrite !(count_events_skip is_check), !(count_events_skip is_execute),
      !(count_events_skip is_copy), !(count_events_skip is_commit)
      by (by apply prefix_excludes; [not_a_probe| |]).
    rewrite !count_events_app, (count_events_none is_connect probes),
      (count_events_none is_connect evs)
      by (done || by apply probe_excludes; [not_a_probe|]).
    change (count_events is_connect [Ev OpConnect true]) with 1%nat.
    split_and!; try lia.
    rewrite <- app_assoc.
    rewrite next_after_skip by (by apply probe_excludes; [not_a_probe|]).
    destruct evs as [|e0 evs0]; [done|].
    change (next_after is_connect is_check ([Ev OpConnect true] ++ e0 :: evs0))
      with (is_check e0 && next_after is_connect is_check (e0 :: evs0)).
    unfold head_is_check in Hhead. by rewrite Hhead, next_after_none.
Qed.

End LoaderExtras.

(** ** More on the sanitizer *)

Module SanitizeExtras.
Import PyStr SanitizeProps.

Example words_of_a_name :
  words (lit "sale--date 2") = [lit "sale"; lit "date"; lit "2"].
Proof. reflexivity. Qed.

Lemma join_cons w ws : join [underscore] (w :: ws) = w ++ tail_join ws.
Proof.
  revert w. induction ws as [|w' ws IH]; intros w; simpl.
  - by rewrite app_nil_r.
  - f_equal. f_equal. apply IH.
Qed.

Lemma rstrip_by_cons p c s :
  p c = false -> rstrip_by p (c :: s) = c :: rstrip_by p s.
Proof. intros Hc. simpl. destruct (rstrip_by p s); by rewrite ?Hc. Qed.

Lemma lstrip_squash_any s :
  lstrip_by is_underscore (squash not_in_class true s)
  = lstrip_by is_underscore (squash not_in_class false s).
Proof. destruct s as [|c r]; simpl; [done|]. by destruct (not_in_class c). Qed.

Lemma sanitize_core_cleaned U x :
  sanitize_core U x = cleaned (py_lower U (py_strip U x)).
Proof.
  unfold sanitize_core, cleaned.
  rewrite sub_non_alnum_squash, sub_underscores_squash.
  destruct (squash_class_shape (py_lower U (py_strip U x)) false) as (Ha & Hn & _).
  by rewrite (squash_fixed is_underscore) by (done || by apply Forall_true).
Qed.

Lemma cleaned_skip c r : in_class c = false -> cleaned (c :: r) = cleaned r.
Proof.
  intros Hc. unfold cleaned, strip_by. simpl. unfold not_in_class at 1.
  rewrite Hc. simpl. by rewrite lstrip_squash_any.
Qed.

Lemma cleaned_keep c r :
  in_class c = true ->
  cleaned (c :: r) = c :: rstrip_by is_underscore (squash not_in_class false r).
Proof.
  intros Hc. unfold cleaned, strip_by. simpl. unfold not_in_class at 1.
  rewrite Hc. simpl. rewrite (in_class_not_underscore c Hc).
  by rewrite rstrip_by_cons by (by apply in_class_not_underscore).
Qed.

Lemma rstrip_squash_skip c r :
  in_class c = false ->
  rstrip_by is_underscore (squash not_in_class false (c :: r))
  = match cleaned r with [] => [] | _ :: _ => underscore :: cleaned r end.
Proof.
  intros Hc. simpl. unfold not_in_class at 1. rewrite Hc. simpl.
  assert (rstrip_by is_underscore (squash not_in_class true r) = cleaned r) as ->.
  { unfold cleaned, strip_by. rewrite <- lstrip_squash_any.
    destruct (squash_class_shape r true) as (_ & _ & Hh).
    by rewrite (lstrip_by_fixed _ _ (Hh eq_refl)). }
  by destruct (cleaned r).
Qed.

Lemma split_words_nonempty s :
  Forall (fun w => w <> []) (split_words s).2.
Proof.
  induction s as [|c r IH]; simpl; [done|].
  destruct (split_words r) as [w ws]. simpl in IH.
  destruct (in_class c); simpl; [done|].
  destruct w; [done|]. by constructor.
Qed.

Lemma cleaned_words s :
  cleaned s = join [underscore] (words s)
  /\ rstrip_by is_underscore (squash not_in_class false s)
     = (split_words s).1 ++ tail_join (split_words s).2.
Proof.
  induction s as [|c r [IHc IHr]]; [done|].
  pose proof (split_words_nonempty r) as Hne.
  unfold words in *. cbn [split_words].
  destruct (split_words r) as [w ws]. cbn [fst snd] in IHr, Hne.
  destruct (in_class c) eqn:Hc; cbn [fst snd].
  - rewrite cleaned_keep by done. rewrite IHr. split.
    + by rewrite join_cons.
    + cbn [squash]. unfold not_in_class at 1. rewrite Hc. cbn [negb].
      rewrite rstrip_by_cons by (by apply in_class_not_underscore).
      by rewrite IHr.
  - rewrite cleaned_skip by done. split; [done|].
    rewrite rstrip_squash_skip by done. rewrite IHc.
    destruct w as [|a w].
    + destruct ws as [|w1 ws]; [done|].
      apply Forall_cons in Hne as [Hw1 _].
      rewrite join_cons. destruct w1; [done|]. done.
    + by rewrite join_cons.
Qed.

Lemma split_words_class s :
  forallb in_class (split_words s).1 = true
  /\ Forall (fun w => forallb in_class w = true) (split_words s).2
  /\ (split_words s).1 ++ concat (split_words s).2
     = List.filter in_class s.
Proof.
  induction s as [|c r (IH1 & IH2 & IH3)]; [done|]. cbn [split_words].
  destruct (split_words r) as [w ws]. cbn [fst snd] in *.
  destruct (in_class c) eqn:Hc; cbn [fst snd].
  - cbn [List.filter]. rewrite Hc.
    split_and!; [cbn [forallb]; by rewrite Hc|done|by rewrite <- IH3].
  - cbn [List.filter]. rewrite Hc, <- IH3.
    destruct w; [done|]. split_and!; [done|by constructor|done].
Qed.

(** X6: what [sanitize] computes, said without the regular expressions.
    Trim the name and lower-case it; its words are its maximal runs of
    characters of [[0-9a-z]].  The result is the words joined by single
    underscores, with [col_] in front when there is no word or the first
    word starts with a digit.  No character of [[0-9a-z]] is lost or
    moved, and nothing else of the name survives. *)
Theorem sanitize_joins_the_words (U : unicode_data) (x : pystr) :
  let ws := words (py_lower U (py_strip U x)) in
  let joined := join [underscore] ws in
  sanitize U x =
    (if match ws with
        | [] => true
        | w :: _ => head_is (py_isdigit U) w
        end
     then lit "col_" ++ joined else joined)
  /\ Forall (fun w => w <> [] /\ forallb in_class w = true) ws
  /\ concat ws = List.filter in_class (py_lower U (py_strip U x)).
Proof.
  intros ws joined. subst ws joined.
  set (s := py_lower U (py_strip U x)).
  destruct (cleaned_words s) as [Hclean _].
  pose proof (split_words_nonempty s) as Hne.
  destruct (split_words_class s) as (Hw & Hws & Hcat).
  unfold sanitize. rewrite sanitize_core_cleaned. fold s. rewrite Hclean.
  unfold words in *. destruct (split_words s) as [w ws]. simpl in *.
  split_and!.
  - destruct w as [|a w].
    + destruct ws as [|w1 ws]; [done|].
      apply Forall_cons in Hne as [Hw1 _]. rewrite join_cons.
      by destruct w1.
    + by rewrite join_cons.
  - destruct w as [|a w].
    + apply Forall_forall. intros w' Hw'. split.
      * by apply (proj1 (Forall_forall _ _) Hne).
      * by apply (proj1 (Forall_forall _ _) Hws).
    + constructor; [done|]. apply Forall_forall. intros w' Hw'. split.
      * by apply (proj1 (Forall_forall _ _) Hne).
      * by apply (proj1 (Forall_forall _ _) Hws).
  - by destruct w.
Qed.

(** X7: the names [sanitize] leaves as they are are exactly the clean
    identifiers: made of [[0-9a-z_]], starting with a letter, with no two
    underscores in a row and no underscore at the end. *)
Theorem sanitize_fixed_points (U : unicode_data) (s : pystr) :
  sanitize U s = s <-> tidy s = true /\ head_is is_ascii_lower s = true.
Proof.
  split.
  - intros Hfix. pose proof (sanitize_core_tidy U s) as Ht.
    destruct (sanitize_cases U s)
      as [[Hc Hs]|[(c & r & Hc & Hd & Hs)|(c & r & Hc & Hl & Hs)]];
      rewrite Hfix in Hs.
    + exfalso. rewrite Hs, sanitize_col_ in Hfix. discriminate.
    + rewrite Hc in Ht. subst s. split; [by apply tidy_col_prefix|done].
    + rewrite Hc in Ht. by subst s.
  - intros [Ht Hh]. by apply sanitize_fixed.
Qed.

End SanitizeExtras.

(** ** More on type inference and the statement *)

Module SchemaExtras.
Import PyStr Pandas Schema Samples SanitizeProps SchemaProps.

(** X8: the type of a column depends on its dtype and on its first 50
    values that are not missing, and on nothing else: what comes after
    them, and where the missing values stand, changes nothing. *)
Theorem type_depends_on_first_fifty (L : library) (s s' : Series) :
  dtype_of s = dtype_of s' ->
  take 50 (values (dropna s)) = take 50 (values (dropna s')) ->
  pg_type_from_series L s = pg_type_from_series L s'.
Proof.
  intros Hd Hv.
  unfold pg_type_from_series, is_integer_dtype, is_float_dtype, is_bool_dtype.
  rewrite Hd. destruct (dtype_of s') eqn:Hd'; try done.
  unfold try_date.
  assert (empty (dropna s) = empty (dropna s')) as ->.
  { unfold empty. destruct (values (dropna s)), (values (dropna s')); done. }
  assert (head 50 (dropna s) = head 50 (dropna s')) as ->; [|done].
  unfold head. rewrite Hv. f_equal. simpl. congruence.
Qed.

Lemma type_depends_on_first_fifty_witness :
  pg_type_from_series toy_library
    {| dtype_of := DObject;
       values := replicate 50 (CStr (lit "n/a")) ++ [CStr (lit "2024-01-01")] |}
  = pg_type_from_series toy_library
      {| dtype_of := DObject;
         values := CMissing :: replicate 50 (CStr (lit "n/a"))
                   ++ [CMissing; CInt 7] |}.
Proof.
  apply (type_depends_on_first_fifty toy_library
           {| dtype_of := DObject;
              values := replicate 50 (CStr (lit "n/a"))
                        ++ [CStr (lit "2024-01-01")] |}
           {| dtype_of := DObject;
              values := CMissing :: replicate 50 (CStr (lit "n/a"))
                        ++ [CMissing; CInt 7] |});
    reflexivity.
Defined.

(** X9: [DATE] is inferred only for a column that is not integer, float
    or boolean, holds a value that is not missing, and on whose first 50
    such values [to_datetime] returned at least one date.  When the parser
    raises, when it parses nothing, and when every value is missing, such
    a column is [TEXT]: the error is swallowed, not raised. *)
Theorem date_needs_a_parsed_value (L : library) (s : Series) :
  let sample := head 50 (dropna s) in
  (pg_type_from_series L s = DATE <->
     dtype_of s = DObject /\ values (dropna s) <> []
     /\ exists maybe, to_datetime L sample = Some maybe
                      /\ any_notnull maybe = true)
  /\ (pg_type_from_series L s = TEXT <->
        dtype_of s = DObject
        /\ (values (dropna s) = [] \/ to_datetime L sample = None
            \/ exists maybe, to_datetime L sample = Some maybe
                             /\ any_notnull maybe = false)).
Proof.
  intros sample. subst sample.
  unfold pg_type_from_series, is_integer_dtype, is_float_dtype, is_bool_dtype.
  destruct (dtype_of s);
    [split; (split; [done|by intros [? _]])..|].
  unfold try_date, empty.
  destruct (values (dropna s)) as [|v vs] eqn:Hv; simpl.
  { split; split; [done|by intros (_ & ? & _)| |done].
    intros _. split; [done|by left]. }
  destruct (to_datetime L (head 50 (dropna s))) as [maybe|] eqn:Hp;
    [destruct (any_notnull maybe) eqn:Hany|].
  - split; split; try done.
    + intros _. split_and!; [done|done|by exists maybe].
    + intros (_ & [?|[?|(m & Hm & Hn)]]); congruence.
  - split; split; try done.
    + intros (_ & _ & m & Hm & Hn). congruence.
    + intros _. split; [done|]. right. right. by exists maybe.
  - split; split; try done.
    + intros (_ & _ & m & Hm & _). congruence.
    + intros _. split; [done|]. right. by left.
Qed.

(** *** The lines of the statement *)

Lemma split_at_app sep a b :
  forallb (fun c => negb (c =? sep)) a = true ->
  split_at sep (a ++ sep :: b) = a :: split_at sep b.
Proof.
  induction a as [|c a IH]; simpl.
  - intros _. by rewrite N.eqb_refl.
  - intros [Hc Ha]%andb_true_iff. apply negb_true_iff in Hc. rewrite Hc.
    by rewrite IH.
Qed.

Lemma no_newline_app a b :
  no_newline (a ++ b) = no_newline a && no_newline b.
Proof. unfold no_newline. apply forallb_app. Qed.

Lemma ident_chars_no_newline s :
  forallb ident_char s = true -> no_newline s = true.
Proof.
  unfold no_newline. induction s as [|c s IH]; simpl; [done|].
  intros [Hc Hs]%andb_true_iff. rewrite IH by done. rewrite andb_true_r.
  apply negb_true_iff, N.eqb_neq. intros ->. by vm_compute in Hc.
Qed.

Lemma sanitize_ident_chars U x : forallb ident_char (sanitize U x) = true.
Proof.
  pose proof (sanitize_core_tidy U x) as Ht.
  destruct (sanitize_cases U x)
    as [[Hc ->]|[(c & r & Hc & Hd & ->)|(c & r & Hc & Hl & ->)]];
    rewrite Hc in Ht.
  - done.
  - apply tidy_col_prefix in Ht. by apply tidy_parts in Ht as (? & _).
  - by apply tidy_parts in Ht as (? & _).
Qed.

Lemma column_def_no_newline U name typ :
  no_newline (column_sql (sanitize U name) typ) = true.
Proof.
  unfold column_sql. rewrite !no_newline_app.
  rewrite (ident_chars_no_newline _ (sanitize_ident_chars U name)).
  by destruct typ.
Qed.

Lemma column_lines_split defs tail :
  Forall (fun d => no_newline d = true) defs ->
  split_at newline (lit "    " ++ join column_sep defs ++ newline :: tail)
  = column_lines defs ++ split_at newline tail.
Proof.
  induction 1 as [|d rest Hd Hrest IH].
  - cbn [join]. rewrite app_nil_l.
    by rewrite (split_at_app newline (lit "    ")).
  - destruct rest as [|d' rest'].
    + cbn [join column_lines]. rewrite app_assoc.
      rewrite split_at_app; [done|].
      fold (no_newline (lit "    " ++ d)). by rewrite no_newline_app, Hd.
    + change (join column_sep (d :: d' :: rest'))
        with (d ++ column_sep ++ join column_sep (d' :: rest')).
      change (column_lines (d :: d' :: rest'))
        with ((lit "    " ++ d ++ lit ",") :: column_lines (d' :: rest')).
      unfold column_sep at 1.
      replace (lit "    " ++
               (d ++ (lit "," ++ [newline] ++ lit "    ")
                  ++ join column_sep (d' :: rest')) ++ newline :: tail)
        with ((lit "    " ++ d ++ lit ",")
              ++ newline :: (lit "    " ++ join column_sep (d' :: rest')
                               ++ newline :: tail))
        by (by rewrite <- !app_assoc).
      rewrite split_at_app; [by rewrite IH|].
      fold (no_newline (lit "    " ++ d ++ lit ",")).
      by rewrite !no_newline_app, Hd.
Qed.

(** X10: when the schema and table names hold no line break, the
    statement has one line for each column of the frame, between the line
    of the [id] column and the closing line: four spaces, the sanitized
    name, a space and the type, and a comma after all but the last.  For a
    frame with no column the [id] line keeps its comma and a line of four
    spaces follows it. *)
Theorem ddl_has_one_line_per_column
    (U : unicode_data) (L : library) (df : DataFrame) (schema table : pystr) :
  no_newline schema = true ->
  no_newline table = true ->
  exists ddl,
    generate_create_table_sql U L df schema table = Some ddl
    /\ split_at newline ddl =
         (lit "CREATE TABLE IF NOT EXISTS " ++ schema ++ lit "." ++ table ++ lit " (")
         :: lit "    id SERIAL PRIMARY KEY,"
         :: column_lines
              (map (fun col => sanitize U col.1 ++ lit " "
                               ++ pg_type_name (column_type L df col)) df)
         ++ [lit ");"; []].
Proof.
  intros Hschema Htable. eexists. split; [apply generate_create_table_sql_total|].
  unfold ddl_text.
  replace (lit "CREATE TABLE IF NOT EXISTS " ++ schema ++ lit "." ++ table
           ++ lit " (" ++ [newline] ++ lit "    id SERIAL PRIMARY KEY,"
           ++ [newline] ++ lit "    "
           ++ join column_sep
                (map (fun col => column_sql (sanitize U col.1) (column_type L df col)) df)
           ++ [newline] ++ lit ");" ++ [newline])
    with ((lit "CREATE TABLE IF NOT EXISTS " ++ schema ++ lit "." ++ table ++ lit " (")
          ++ newline :: (lit "    id SERIAL PRIMARY KEY,"
          ++ newline :: (lit "    "
          ++ join column_sep
               (map (fun col => column_sql (sanitize U col.1) (column_type L df col)) df)
          ++ newline :: (lit ");" ++ [newline]))))
    by (by rewrite <- !app_assoc).
  rewrite split_at_app.
  2:{ fold (no_newline (lit "CREATE TABLE IF NOT EXISTS " ++ schema ++ lit "."
                          ++ table ++ lit " (")).
      by rewrite !no_newline_app, Hschema, Htable. }
  rewrite split_at_app by done.
  rewrite column_lines_split; [done|].
  apply Forall_forall. intros d (col & -> & _)%list_elem_of_fmap.
  apply column_def_no_newline.
Qed.

Lemma ddl_has_one_line_per_column_witness :
  no_newline (lit "public") = true
  /\ no_newline (lit "nashville_housing") = true
  /\ exists ddl,
       generate_create_table_sql ascii_only toy_library housing_prepared
         (lit "public") (lit "nashville_housing") = Some ddl
       /\ length (split_at newline ddl) = 7%nat.
Proof.
  split; [reflexivity|]. split; [reflexivity|].
  destruct (ddl_has_one_line_per_column ascii_only toy_library housing_prepared
              (lit "public") (lit "nashville_housing") eq_refl eq_refl)
    as (ddl & Hddl & Hlines).
  exists ddl. split; [exact Hddl|]. rewrite Hlines. reflexivity.
Defined.

End SchemaExtras.

(** ** More on the preparation of the frame *)

Module PrepareExtras.
Import PyStr Pandas Schema Db Loader Samples SanitizeProps SchemaProps LoaderProps.

(** X11: the preparation of the frame can fail only at the date parse of
    line 111.  With no column named [sale_date] after sanitization it
    succeeds, whatever the library does, and only renames; with one it
    fails exactly when [to_datetime] raises on that column; with several
    it always fails, since [df['sale_date']] is then a frame. *)
Theorem preparation_fails_only_on_sale_date
    (U : unicode_data) (L : library) (df : DataFrame) :
  exists kept,
    drop_unnamed U df = Some kept
    /\ let renamed := map (fun col => (sanitize U col.1, col.2)) kept in
       prepare U L df =
         match filter (fun col => sanitize U col.1 = sale_date) kept with
         | [] => Some renamed
         | [col] =>
             match to_datetime L col.2 with
             | Some stamps => Some (setitem renamed sale_date (dt_date stamps))
             | None => None
             end
         | _ => None
         end.
Proof.
  destruct (drop_unnamed_spec U df) as (kept & Hkept & _).
  exists kept. split; [done|]. intros renamed. subst renamed.
  rewrite (prepare_cases U L df kept Hkept).
  by destruct (filter _ kept) as [|c0 [|c1 rest]].
Qed.

Lemma prepared_labels_sanitized U L (df df' : DataFrame) :
  prepare U L df = Some df' ->
  Forall (fun col' => exists x, col'.1 = sanitize U x) df'.
Proof.
  intros (kept & _ & Hrel)%prepare_spec.
  induction Hrel as [|col col' kept df' [Hlabel _] _ IH]; constructor; [|done].
  by exists col.1.
Qed.

Lemma sanitize_of_sanitized U x :
  sanitize U (sanitize U x)
  = if bool_decide (sanitize U x = lit "col_") then lit "col" else sanitize U x.
Proof.
  rewrite sanitize_twice_cases.
  destruct (decide (sanitize_core U x = [])) as [Hc|Hc].
  - rewrite !bool_decide_eq_true_2; [done| |done]. by apply sanitize_fallback_iff.
  - rewrite !bool_decide_eq_false_2; [done| |done].
    intros H. by apply sanitize_fallback_iff in H.
Qed.

(** A file whose only column has no letter and no digit in its name: the
    statement creates the column [col], the bulk load names [col_]. *)
Example bare_fallback_names :
  let df := [(lit "???", text_column [lit "x"])] in
  prepare ascii_only toy_library df = Some [(lit "col_", text_column [lit "x"])]
  /\ generate_create_table_sql ascii_only toy_library
       [(lit "col_", text_column [lit "x"])] (lit "public") (lit "t")
     = Some (lit "CREATE TABLE IF NOT EXISTS public.t (" ++ [newline]
             ++ lit "    id SERIAL PRIMARY KEY," ++ [newline]
             ++ lit "    col TEXT" ++ [newline]
             ++ lit ");" ++ [newline])
  /\ copy_statement (lit "public") (lit "t") [lit "col_"]
     = lit "COPY " ++ quote_ident (lit "public") ++ lit "."
       ++ quote_ident (lit "t") ++ lit " (" ++ quote_ident (lit "col_")
       ++ lit ") FROM STDIN WITH CSV HEADER".
Proof. by vm_compute. Qed.

(** X12: [main] sanitizes the names at line 105 and the generator
    sanitizes them again at line 54, while the bulk load of line 147 uses
    them as they are.  So the statement names each column of the prepared
    frame as the bulk load does, except a column named [col_] (a name
    with no letter and no digit), which the statement creates as [col]:
    the two lists of names agree exactly when no column is [col_]. *)
Theorem ddl_names_differ_only_on_bare_fallback
    (U : unicode_data) (L : library) (df df' : DataFrame) (schema table : pystr) :
  prepare U L df = Some df' ->
  generate_create_table_sql U L df' schema table =
    Some (ddl_text schema table
            (join column_sep
               (map (fun col =>
                       column_sql
                         (if bool_decide (col.1 = lit "col_") then lit "col" else col.1)
                         (column_type L df' col))
                    df')))
  /\ (map (sanitize U) (columns df') = columns df' <-> lit "col_" ∉ columns df').
Proof.
  intros Hlabels%prepared_labels_sanitized.
  assert (Forall (fun col' : pystr * Series =>
            sanitize U col'.1
            = if bool_decide (col'.1 = lit "col_") then lit "col" else col'.1) df')
    as Hnames.
  { eapply Forall_impl; [exact Hlabels|]. intros col' [x ->].
    apply sanitize_of_sanitized. }
  split.
  - rewrite generate_create_table_sql_total. do 3 f_equal.
    apply map_ext_in. intros col Hcol%list_elem_of_In.
    by rewrite (proj1 (Forall_forall _ _) Hnames col Hcol).
  - unfold columns. clear Hlabels. induction Hnames as [|col df' Hcol _ IH].
    + split; [intros _; apply not_elem_of_nil|done].
    + simpl. rewrite Hcol, not_elem_of_cons. split.
      * intros [= Hhead Htail]. split; [|by apply IH].
        intros Heq. rewrite <- Heq in Hhead. by vm_compute in Hhead.
      * intros [Hne Hrest]. rewrite bool_decide_eq_false_2 by done.
        f_equal. by apply IH.
Qed.

Lemma ddl_names_differ_only_on_bare_fallback_witness :
  prepare ascii_only toy_library housing = Some housing_prepared
  /\ (map (sanitize ascii_only) (columns housing_prepared) = columns housing_prepared
      <-> lit "col_" ∉ columns housing_prepared).
Proof.
  split; [reflexivity|].
  apply (ddl_names_differ_only_on_bare_fallback ascii_only toy_library housing
           housing_prepared (lit "public") (lit "nashville_housing")).
  reflexivity.
Defined.

End PrepareExtras.
